(** * MotionDetectionCounter (main.py): shape filter, line crossing and
      de-duplication, embedded in Rocq.

    Conventions of the embedding.
    - Python [int] is [Z].  Pixel coordinates and the bounding box returned by
      [cv2.boundingRect] are Python ints, hence [Z].
    - A Python [float] is a rational number, hence [Q]: [cv2.contourArea] and
      the configured thresholds are such numbers, and comparisons of floats are
      comparisons of rationals.
    - [np.sqrt] rounds: [Py.np_sqrt] is the double that numpy returns for an
      integer below 2^64, the correctly rounded square root of the integer
      converted to a double.  (From 2^64 on numpy raises [TypeError]; squared
      distances of image coordinates stay far below.)
    - The quotients [w / h], [area / rect_area] and [30 / elapsed_time] are kept
      exact.  Rounding is monotone, so it can only change a comparison for a
      quotient within one rounding step (a relative 1e-16) of the bound it is
      compared with; the theorems that compare quotients with bounds are stated
      for the default bounds 0.3 and 3.0, which no quotient of 32-bit box sizes
      comes that close to without being equal.
    - [a / b] raises [ZeroDivisionError] on a zero divisor: it is a function into
      [result].
    - [collections.deque(maxlen=100)] is a list, oldest entry first, with the
      bounded [append] of CPython.
    - The OpenCV stages of [process_frame] (background subtraction, morphology,
      [findContours]) are external: a frame is given by the list of contours
      that [findContours] returns for it, and a contour by the two things the
      program observes of it, its bounding rectangle and its area.
    - Drawing, FPS measurement and printing do not touch the counting state and
      are left out. *)

From Stdlib Require Import ZArith QArith Qreals Reals List Bool Lia Lra.
Import ListNotations.

Local Open Scope Z_scope.

(** ** Python runtime *)

Module Py.

Inductive result (A : Type) : Type :=
| Ok (a : A)
| ZeroDivisionError.

Arguments Ok {A} a.
Arguments ZeroDivisionError {A}.

Definition bind {A B : Type} (m : result A) (k : A -> result B) : result B :=
  match m with
  | Ok a => k a
  | ZeroDivisionError => ZeroDivisionError
  end.

(** [a < b] on numbers. *)
Definition lt (a b : Q) : bool := negb (Qle_bool b a).

(** [a <= b] on numbers. *)
Definition le (a b : Q) : bool := Qle_bool a b.

(** [a / b]: true division, which raises on a zero divisor; the quotient is
    kept exact (see the conventions above). *)
Definition truediv (a b : Q) : result Q :=
  if Qeq_bool b 0 then ZeroDivisionError else Ok (a / b)%Q.

(** [d.append(x)] on a [deque] created with [maxlen]: the item is added on the
    right, and the leftmost one is dropped when the bound is exceeded. *)
Definition deque_append {A : Type} (maxlen : nat) (d : list A) (x : A) : list A :=
  let d' := d ++ [x] in
  if (maxlen <? length d')%nat then tl d' else d'.

(** The double nearest to a positive integer, as numpy converts the argument
    of [np.sqrt]: the integer itself below 2^53, else its 53 leading bits
    rounded to nearest, ties to even. *)
Definition round_int (n : Z) : Z :=
  if n <? 2 ^ 53 then n
  else
    let k := Z.log2 n - 52 in
    let q := n / 2 ^ k in
    let r := n mod 2 ^ k in
    let half := 2 ^ (k - 1) in
    if r <? half then q * 2 ^ k
    else if half <? r then (q + 1) * 2 ^ k
    else if Z.even q then q * 2 ^ k else (q + 1) * 2 ^ k.

(** [np.sqrt(n)] for an integer [0 <= n]: the double nearest to the square root
    of [round_int n].  With [s] fraction bits the root has a 53-bit numerator
    [m]: the integer root [q] of the argument scaled by [4^s], or [q + 1] when
    the root lies above [q + 1/2] (it is never [q + 1/2]). *)
Definition np_sqrt (n : Z) : Q :=
  if n <=? 0 then 0%Q
  else
    let x := round_int n in
    let s := Z.max 0 (52 - Z.log2 x / 2) in
    let p := 2 ^ s in
    let N := x * (p * p) in
    let q := Z.sqrt N in
    let m := if N - q * q <=? q then q else q + 1 in
    Qmake m (Z.to_pos p).

(** [np.sqrt(n) < t] for an integer [n]: [np.sqrt] of a negative number is NaN,
    which compares false with everything. *)
Definition sqrt_ltb (n : Z) (t : Q) : bool :=
  (0 <=? n) && lt (np_sqrt n) t.

End Py.

Notation "x <- m ;; k" := (Py.bind m (fun x => k))
  (at level 61, m at next level, right associativity).

Import Py.

(** ** Data *)

Definition point : Type := Z * Z.
Definition rect : Type := Z * Z * Z * Z.

(** What the program reads of a contour. *)
Record Contour : Type := {
  boundingRect : rect;   (* cv2.boundingRect(contour) = (x, y, w, h) *)
  contourArea : Q        (* cv2.contourArea(contour) *)
}.

(** The arguments of the constructor. *)
Record Config : Type := {
  counting_line_y : Z;
  min_area : Q;
  max_area : Q;
  distance_threshold : Q;
  aspect_ratio_range : Q * Q
}.

Definition default_config : Config := {|
  counting_line_y := 250;
  min_area := 1000;
  max_area := 50000;
  distance_threshold := 50;
  aspect_ratio_range := (3 # 10, 3)%Q
|}.

(** The counting state of the object. *)
Record State : Type := {
  object_count : Z;
  tracked_objects : list point
}.

(** [deque(maxlen=100)] *)
Definition tracked_maxlen : nat := 100.

(** [__init__]: [object_count = 0], [tracked_objects = deque(maxlen=100)]. *)
Definition init_state : State := {|
  object_count := 0;
  tracked_objects := []
|}.

(** ** Shape classifier *)

(** [return False, None, None] *)
Definition rejected : bool * option point * option rect := (false, None, None).

Definition is_box_like_shape (cfg : Config) (contour : Contour)
  : result (bool * option point * option rect) :=
  let '(x, y, w, h) := boundingRect contour in
  let area := contourArea contour in
  if lt area (min_area cfg) || lt (max_area cfg) area then Ok rejected
  else
    aspect_ratio <- (if 0 <? h then truediv (inject_Z w) (inject_Z h) else Ok 0%Q) ;;
    if negb (le (fst (aspect_ratio_range cfg)) aspect_ratio
             && le aspect_ratio (snd (aspect_ratio_range cfg)))
    then Ok rejected
    else
      let rect_area := w * h in
      sparse <- (if 0 <? rect_area
                 then solidity <- truediv area (inject_Z rect_area) ;;
                      Ok (lt solidity (3 # 10)%Q)
                 else Ok false) ;;
      if sparse then Ok rejected
      else
        let center_x := x + w / 2 in
        let center_y := y + h / 2 in
        Ok (true, Some (center_x, center_y), Some (x, y, w, h)).

(** ** Crossing and de-duplication tracker *)

(** The sum of squares under the root in [is_duplicate_object]. *)
Definition dist2 (center prev_center : point) : Z :=
  let '(cx, cy) := center in
  let '(prev_cx, prev_cy) := prev_center in
  (cx - prev_cx) ^ 2 + (cy - prev_cy) ^ 2.

(** The [for] loop of [is_duplicate_object], with its early [return True]. *)
Fixpoint is_duplicate_loop (threshold : Q) (center : point) (tracked : list point)
  : bool :=
  match tracked with
  | [] => false
  | prev_center :: rest =>
      if sqrt_ltb (dist2 center prev_center) threshold then true
      else is_duplicate_loop threshold center rest
  end.

Definition is_duplicate_object (cfg : Config) (st : State) (center : point) : bool :=
  is_duplicate_loop (distance_threshold cfg) center (tracked_objects st).

Definition has_crossed_line (cfg : Config) (center : point) : bool :=
  let '(_, cy) := center in
  Z.abs (cy - counting_line_y cfg) <=? 10.

(** The counting decision of [process_frame] for one accepted centre: the [if]
    on [has_crossed_line] and [is_duplicate_object] with its two assignments.
    The boolean tells whether the branch was taken. *)
Definition consider (cfg : Config) (st : State) (center : point) : bool * State :=
  if has_crossed_line cfg center && negb (is_duplicate_object cfg st center)
  then (true,
        {| object_count := object_count st + 1;
           tracked_objects := deque_append tracked_maxlen (tracked_objects st) center |})
  else (false, st).

(** The [for contour in contours] loop of [process_frame]. *)
Fixpoint process_contours (cfg : Config) (st : State) (contours : list Contour)
  (detected_objects : list (point * option rect))
  : result (State * list (point * option rect)) :=
  match contours with
  | [] => Ok (st, detected_objects)
  | contour :: rest =>
      r <- is_box_like_shape cfg contour ;;
      match r with
      | (true, Some center, bbox) =>
          let st' := snd (consider cfg st center) in
          process_contours cfg st' rest (detected_objects ++ [(center, bbox)])
      | _ => process_contours cfg st rest detected_objects
      end
  end.

(** [process_frame], from the contours found in the frame on. *)
Definition process_frame (cfg : Config) (st : State) (contours : list Contour)
  : result (State * list (point * option rect)) :=
  process_contours cfg st contours [].

(** The [elif key == ord('r')] branch of [run]. *)
Definition reset (st : State) : State :=
  {| object_count := 0; tracked_objects := [] |}.

(** The key read by [cv2.waitKey] at the end of an iteration of [run]. *)
Inductive Key : Type := KeyQ | KeyR | KeyOther.

(** One iteration of the [while True] loop of [run] on a frame that was read:
    the new state and whether the loop goes on. *)
Definition run_iteration (cfg : Config) (st : State) (contours : list Contour)
  (key : Key) : result (State * bool) :=
  r <- process_frame cfg st contours ;;
  let st' := fst r in
  match key with
  | KeyQ => Ok (st', false)
  | KeyR => Ok (reset st', true)
  | KeyOther => Ok (st', true)
  end.

(** The loop of [run] over the frames delivered by the camera; the end of the
    list is the failed [cap.read()]. *)
Fixpoint run (cfg : Config) (st : State) (frames : list (list Contour * Key))
  : result State :=
  match frames with
  | [] => Ok st
  | (contours, key) :: rest =>
      r <- run_iteration cfg st contours key ;;
      if snd r then run cfg (fst r) rest else Ok (fst r)
  end.

(** ** Observations on the program *)

(** The state in which the loop of [process_frame] leaves the object. *)
Fixpoint frame_state (cfg : Config) (st : State) (contours : list Contour) : State :=
  match contours with
  | [] => st
  | contour :: rest =>
      match is_box_like_shape cfg contour with
      | Ok (true, Some center, _) => frame_state cfg (snd (consider cfg st center)) rest
      | _ => frame_state cfg st rest
      end
  end.

(** The decisions taken by the tracker during one [process_frame], in order:
    one boolean per accepted contour. *)
Fixpoint frame_decisions (cfg : Config) (st : State) (contours : list Contour)
  : list bool :=
  match contours with
  | [] => []
  | contour :: rest =>
      match is_box_like_shape cfg contour with
      | Ok (true, Some center, _) =>
          let (counted, st') := consider cfg st center in
          counted :: frame_decisions cfg st' rest
      | _ => frame_decisions cfg st rest
      end
  end.

(** A sequence of [process_frame] calls. *)
Fixpoint process_frames (cfg : Config) (st : State) (frames : list (list Contour))
  : result State :=
  match frames with
  | [] => Ok st
  | contours :: rest =>
      r <- process_frame cfg st contours ;;
      process_frames cfg (fst r) rest
  end.

(** The decisions of the tracker over a sequence of [process_frame] calls. *)
Fixpoint frames_decisions (cfg : Config) (st : State) (frames : list (list Contour))
  : list bool :=
  match frames with
  | [] => []
  | contours :: rest =>
      frame_decisions cfg st contours
      ++ frames_decisions cfg (frame_state cfg st contours) rest
  end.

(** The number of [true] among the decisions. *)
Definition count_true (decisions : list bool) : Z :=
  Z.of_nat (length (filter (fun counted : bool => counted) decisions)).

(** The states the object can be in: any number of [process_frame] calls and
    resets after construction. *)
Inductive reachable (cfg : Config) : State -> Prop :=
| reach_init : reachable cfg init_state
| reach_frame : forall st contours st' detected,
    reachable cfg st ->
    process_frame cfg st contours = Ok (st', detected) ->
    reachable cfg st'
| reach_reset : forall st,
    reachable cfg st -> reachable cfg (reset st).

(** The Euclidean distance of two centres, over the reals. *)
Definition euclidean_distance (c p : point) : R :=
  sqrt ((IZR (fst c) - IZR (fst p)) ^ 2 + (IZR (snd c) - IZR (snd p)) ^ 2)%R.

(** The candidate is at the line. *)
Definition at_line (cfg : Config) (c : point) : Prop :=
  Z.abs (snd c - counting_line_y cfg) <= 10.

(** The distance of two centres as [is_duplicate_object] computes it: the
    double [np.sqrt((cx - prev_cx)**2 + (cy - prev_cy)**2)]. *)
Definition computed_distance (c p : point) : Q := np_sqrt (dist2 c p).

(** The candidate matches an entry of the history: the computed distance to it
    is strictly below [distance_threshold]. *)
Definition matches_history (cfg : Config) (st : State) (c : point) : Prop :=
  exists p, In p (tracked_objects st) /\
            (computed_distance c p < distance_threshold cfg)%Q.

(** [distance_threshold] is the whole number [T] of pixels, below 2^26, as the
    default 50 is. *)
Definition integer_threshold (cfg : Config) (T : Z) : Prop :=
  0 <= T < 2 ^ 26 /\ (distance_threshold cfg == inject_Z T)%Q.

(** [p] is in the history with at most [k] entries after it. *)
Definition holds_recent (p : point) (k : nat) (h : list point) : Prop :=
  exists a b, h = a ++ p :: b /\ (length b <= k)%nat.

(** The three checks of the classifier, each on its own. *)

(** [not (area < min_area or area > max_area)] *)
Definition area_ok (cfg : Config) (area : Q) : bool :=
  negb (lt area (min_area cfg) || lt (max_area cfg) area).

(** The value of [aspect_ratio], as a total rational. *)
Definition aspect_ratio_of (w h : Z) : Q :=
  if 0 <? h then (inject_Z w / inject_Z h)%Q else 0%Q.

(** [aspect_ratio_range[0] <= aspect_ratio <= aspect_ratio_range[1]] *)
Definition ratio_ok (cfg : Config) (aspect_ratio : Q) : bool :=
  le (fst (aspect_ratio_range cfg)) aspect_ratio
  && le aspect_ratio (snd (aspect_ratio_range cfg)).

(** The solidity check, which only runs on a positive [rect_area]. *)
Definition solidity_ok (area : Q) (rect_area : Z) : bool :=
  if 0 <? rect_area then negb (lt (area / inject_Z rect_area)%Q (3 # 10)%Q) else true.

(** The triple returned for an accepted contour. *)
Definition accepted (bbox : rect) : bool * option point * option rect :=
  let '(x, y, w, h) := bbox in
  (true, Some (x + w / 2, y + h / 2), Some bbox).

(** ** Inputs of the scenarios *)

(** A box of 50 x 50 and area 2000 centred at (cx, cy): aspect ratio 1,
    solidity 0.8. *)
Definition blob_at (cx cy : Z) : Contour :=
  {| boundingRect := (cx - 25, cy - 25, 50, 50); contourArea := 2000 |}.

(** The blob of scenario A, centred on the default line. *)
Definition scenario_A_blob : Contour := blob_at 100 250.

(** A configuration whose aspect-ratio range starts at 0 and that has no lower
    bound on the area. *)
Definition range_and_area_from_zero : Config := {|
  counting_line_y := 250;
  min_area := 0;
  max_area := 50000;
  distance_threshold := 50;
  aspect_ratio_range := (0, 3)%Q
|}.

(** The empty contour: [cv2.boundingRect] gives the box (0, 0, 0, 0) and
    [cv2.contourArea] gives 0. *)
Definition empty_contour : Contour :=
  {| boundingRect := (0, 0, 0, 0); contourArea := 0 |}.

(** A filled bar of 20 x 60 pixels with its upper left corner at (x, y): its
    contour encloses 1119 square pixels, its aspect ratio is 1/3 and its centre
    is (x + 10, y + 30). *)
Definition bar_at (x y : Z) : Contour :=
  {| boundingRect := (x, y, 20, 60); contourArea := 1119 |}.

(** The contours of a frame of 5070 x 281 pixels with 102 bars, in the order of
    their first row: one at x = 0 (centre (10, 249)), a hundred every 50 pixels
    from x = 100 on (centres (110 + 50 i, 250)), and one at x = 32 (centre
    (42, 251)), 12 pixels to the right of the first. *)
Definition wide_frame : list Contour :=
  bar_at 0 219
  :: map (fun i => bar_at (100 + 50 * Z.of_nat i) 220) (seq 0 100)
  ++ [bar_at 32 221].

(** The two neighbouring bars of [wide_frame] alone. *)
Definition two_bars : list Contour := [bar_at 0 219; bar_at 32 221].

(** The double 1.4142135623730951, nearest to the square root of 2. *)
Definition sqrt2_double : Q := 6369051672525773 # 4503599627370496.

(** The default configuration with [distance_threshold=1.4142135623730951]. *)
Definition sqrt2_config : Config := {|
  counting_line_y := 250;
  min_area := 1000;
  max_area := 50000;
  distance_threshold := sqrt2_double;
  aspect_ratio_range := (3 # 10, 3)%Q
|}.

(** The double nearest to the square root of 1028 = 32^2 + 2^2, which lies
    above it. *)
Definition sqrt1028_double : Q := Eval vm_compute in np_sqrt 1028.

(** The default configuration with that double as [distance_threshold]. *)
Definition sqrt1028_config : Config := {|
  counting_line_y := 250;
  min_area := 1000;
  max_area := 50000;
  distance_threshold := sqrt1028_double;
  aspect_ratio_range := (3 # 10, 3)%Q
|}.

(** A state whose history is full: the hundred centres (110 + 50 i, 250). *)
Definition state_full : State :=
  {| object_count := 100;
     tracked_objects := map (fun i => (110 + 50 * Z.of_nat i, 250)) (seq 0 100) |}.

(** Five frames with one blob each, 100 pixels apart on the line. *)
Definition five_frames : list (list Contour) :=
  map (fun i => [blob_at (100 * Z.of_nat i) 250]) (seq 1 5).

(** The state after scenario A: one count, at (100, 250). *)
Definition state_A : State :=
  {| object_count := 1; tracked_objects := [(100, 250)] |}.

(** The state after a frame with two blobs 100 pixels apart on the line. *)
Definition state_two : State :=
  {| object_count := 2; tracked_objects := [(100, 250); (200, 250)] |}.

(** The state after [five_frames]. *)
Definition state_five : State :=
  {| object_count := 5;
     tracked_objects := [(100, 250); (200, 250); (300, 250); (400, 250); (500, 250)] |}.

(** Case analysis on what the classifier returns for [contour]. *)
Ltac classify cfg contour :=
  destruct (is_box_like_shape cfg contour) as [[[[] [?center|]] ?bbox]|].

(** ** Further parts of the program *)

(** The fields of the object used by [calculate_fps]. *)
Record FpsState : Type := {
  fps_counter : Z;
  fps_start_time : Q;
  current_fps : Q
}.

(** [__init__]: [fps_counter = 0], [fps_start_time = time.time()],
    [current_fps = 0]; [now] is the reading of the clock. *)
Definition init_fps (now : Q) : FpsState :=
  {| fps_counter := 0; fps_start_time := now; current_fps := 0 |}.

(** [calculate_fps].  The two readings of [time.time()] made on an update are
    inputs: [now_elapsed] for [elapsed_time], [now_restart] for the new
    [fps_start_time]; a call that makes no update reads no clock.  An exception
    leaves [calculate_fps] and [run] (only [KeyboardInterrupt] is caught there),
    so that no state is kept with it. *)
Definition calculate_fps (fs : FpsState) (now_elapsed now_restart : Q)
  : result FpsState :=
  let fps_counter' := fps_counter fs + 1 in
  if fps_counter' mod 30 =? 0
  then
    let elapsed_time := (now_elapsed - fps_start_time fs)%Q in
    fps <- truediv 30 elapsed_time ;;
    Ok {| fps_counter := fps_counter';
          fps_start_time := now_restart;
          current_fps := fps |}
  else
    Ok {| fps_counter := fps_counter';
          fps_start_time := fps_start_time fs;
          current_fps := current_fps fs |}.

(** What one iteration of the loop of [run] receives: the clock readings
    available to [calculate_fps], the contours of the frame and the key. *)
Record Tick : Type := {
  now_elapsed : Q;
  now_restart : Q;
  tick_contours : list Contour;
  tick_key : Key
}.

(** The loop of [run] on an opened camera, with its FPS bookkeeping:
    [calculate_fps], then the frame and the key as in [run_iteration]. *)
Fixpoint run_loop (cfg : Config) (fs : FpsState) (st : State) (ticks : list Tick)
  : result (FpsState * State) :=
  match ticks with
  | [] => Ok (fs, st)
  | t :: rest =>
      fs' <- calculate_fps fs (now_elapsed t) (now_restart t) ;;
      r <- run_iteration cfg st (tick_contours t) (tick_key t) ;;
      if snd r then run_loop cfg fs' (fst r) rest else Ok (fs', fst r)
  end.

(** The frame and the key of a tick, as [run] takes them. *)
Definition tick_frame (t : Tick) : list Contour * Key :=
  (tick_contours t, tick_key t).

(** Every reading of the clock is later than the one before, from [last] on. *)
Fixpoint clock_advances (last : Q) (ticks : list Tick) : Prop :=
  match ticks with
  | [] => True
  | t :: rest =>
      (last < now_elapsed t)%Q /\ (now_elapsed t <= now_restart t)%Q /\
      clock_advances (now_restart t) rest
  end.

(** The list [detected_objects] that [process_frame] returns: the accepted
    contours, in order. *)
Fixpoint detections (cfg : Config) (contours : list Contour)
  : list (point * option rect) :=
  match contours with
  | [] => []
  | contour :: rest =>
      match is_box_like_shape cfg contour with
      | Ok (true, Some center, bbox) => (center, bbox) :: detections cfg rest
      | _ => detections cfg rest
      end
  end.

(** The contour is accepted and its centre is at the line. *)
Definition relevant (cfg : Config) (contour : Contour) : bool :=
  match is_box_like_shape cfg contour with
  | Ok (true, Some center, _) => has_crossed_line cfg center
  | _ => false
  end.

(** No entry of the list is, by the computed distance, strictly within [t] of
    an earlier one. *)
Fixpoint pairwise_apart (t : Q) (h : list point) : Prop :=
  match h with
  | [] => True
  | p :: rest =>
      (forall q, In q rest -> ~ (computed_distance q p < t)%Q) /\
      pairwise_apart t rest
  end.

(** Every accepted centre of the frame that is at the line matches the history
    of [st]. *)
Definition covered (cfg : Config) (st : State) (contours : list Contour) : Prop :=
  forall contour c bbox,
    In contour contours ->
    is_box_like_shape cfg contour = Ok (true, Some c, bbox) ->
    has_crossed_line cfg c = true ->
    is_duplicate_object cfg st c = true.

(** The key 'q' is not pressed during these iterations. *)
Definition no_quit (frames : list (list Contour * Key)) : Prop :=
  forall f, In f frames -> snd f <> KeyQ.

(** The default configuration with the duplicate test switched off. *)
Definition no_dedup_config : Config := {|
  counting_line_y := 250;
  min_area := 1000;
  max_area := 50000;
  distance_threshold := 0;
  aspect_ratio_range := (3 # 10, 3)%Q
|}.

(** A configuration whose largest area is below its smallest one. *)
Definition inverted_area_config : Config := {|
  counting_line_y := 250;
  min_area := 1000;
  max_area := 500;
  distance_threshold := 50;
  aspect_ratio_range := (3 # 10, 3)%Q
|}.

(** Thirty ticks one second apart, starting at second 1, no contour, no key. *)
Definition thirty_ticks : list Tick :=
  map (fun i => {| now_elapsed := inject_Z (Z.of_nat i);
                   now_restart := inject_Z (Z.of_nat i);
                   tick_contours := [];
                   tick_key := KeyOther |}) (seq 1 30).

(** ** The runtime pieces meet their meaning *)

Lemma lt_spec (a b : Q) : Py.lt a b = true <-> (a < b)%Q.
Proof.
  unfold Py.lt. rewrite negb_true_iff. split.
  - intros H. apply Qnot_le_lt. intros Hle.
    apply Qle_bool_iff in Hle. congruence.
  - intros H. destruct (Qle_bool b a) eqn:E; [|reflexivity].
    apply Qle_bool_iff in E. exfalso. exact (Qlt_not_le _ _ H E).
Qed.

Lemma lt_false (a b : Q) : Py.lt a b = false <-> (b <= a)%Q.
Proof.
  unfold Py.lt. rewrite negb_false_iff. apply Qle_bool_iff.
Qed.

Lemma le_spec (a b : Q) : Py.le a b = true <-> (a <= b)%Q.
Proof. apply Qle_bool_iff. Qed.

Lemma Q2R_inject_Z (n : Z) : Q2R (inject_Z n) = IZR n.
Proof. unfold Q2R. simpl. field. Qed.

Lemma sqrt_lt_squares (x t : R) :
  (0 <= x)%R -> ((sqrt x < t)%R <-> (0 < t)%R /\ (x < t * t)%R).
Proof.
  intros Hx.
  pose proof (sqrt_pos x) as Hs.
  pose proof (sqrt_sqrt x Hx) as Hss.
  split.
  - intros H. split; [lra|]. rewrite <- Hss. nra.
  - intros [Ht Hlt]. destruct (Rlt_le_dec (sqrt x) t) as [|Hge]; [assumption|].
    exfalso. rewrite <- Hss in Hlt. nra.
Qed.

(** *** The double square root *)

(** Rounding an integer to a double leaves it as it is below 2^53 and does not
    bring it below 2^52 otherwise. *)
Lemma round_int_small (n : Z) : n < 2 ^ 53 -> round_int n = n.
Proof.
  intros Hn. unfold round_int.
  destruct (n <? 2 ^ 53) eqn:E; [reflexivity|].
  apply Z.ltb_ge in E. lia.
Qed.

Lemma round_int_large (n : Z) : 2 ^ 53 <= n -> 2 ^ 52 <= round_int n.
Proof.
  intros Hn. unfold round_int.
  destruct (n <? 2 ^ 53) eqn:E; [apply Z.ltb_lt in E; lia|].
  assert (Hpos : 0 < n) by lia.
  pose proof (Z.log2_spec n Hpos) as [Hlo Hhi].
  assert (Hlog : 53 <= Z.log2 n).
  { apply Z.log2_le_pow2; [lia | exact Hn]. }
  set (k := Z.log2 n - 52) in *.
  assert (Hk : 1 <= k) by (unfold k; lia).
  assert (Hp : 0 < 2 ^ k) by (apply Z.pow_pos_nonneg; lia).
  assert (Hq : 2 ^ 52 <= n / 2 ^ k).
  { apply Z.div_le_lower_bound; [exact Hp|].
    replace (Z.log2 n) with (k + 52) in Hlo by (unfold k; lia).
    rewrite Z.pow_add_r in Hlo by lia. lia. }
  assert (H52 : 0 < 2 ^ 52) by (apply Z.pow_pos_nonneg; lia).
  destruct (n mod 2 ^ k <? 2 ^ (k - 1)); [nia|].
  destruct (2 ^ (k - 1) <? n mod 2 ^ k); [nia|].
  destruct (Z.even (n / 2 ^ k)); nia.
Qed.

(** The double square root of a positive [n] is [m / 2^s], where [m] is the
    integer root of the scaled argument or its successor, the successor only
    when the remainder exceeds the root. *)
Lemma np_sqrt_pos_eq (n : Z) :
  0 < n ->
  exists s m,
    0 <= s /\ np_sqrt n = Qmake m (Z.to_pos (2 ^ s)) /\
    s = Z.max 0 (52 - Z.log2 (round_int n) / 2) /\
    let N := round_int n * (2 ^ s * 2 ^ s) in
    Z.sqrt N <= m <= Z.sqrt N + 1 /\
    (m = Z.sqrt N + 1 -> Z.sqrt N < N - Z.sqrt N * Z.sqrt N).
Proof.
  intros Hn. unfold np_sqrt.
  destruct (n <=? 0) eqn:E; [apply Z.leb_le in E; lia|].
  exists (Z.max 0 (52 - Z.log2 (round_int n) / 2)). eexists.
  split; [lia|]. split; [reflexivity|]. split; [reflexivity|].
  cbv zeta.
  set (N := round_int n * _).
  destruct (N - Z.sqrt N * Z.sqrt N <=? Z.sqrt N) eqn:Em.
  - split; [lia|]. intros. lia.
  - apply Z.leb_gt in Em. split; [lia|]. intros _. exact Em.
Qed.

Lemma Qmake_lt_inject_Z (m : Z) (s : Z) (T : Z) :
  0 <= s ->
  ((Qmake m (Z.to_pos (2 ^ s)) < inject_Z T)%Q <-> m < T * 2 ^ s).
Proof.
  intros Hs. unfold Qlt, inject_Z. cbn [Qnum Qden].
  rewrite Z2Pos.id by (apply Z.pow_pos_nonneg; lia). lia.
Qed.

(** Against a whole number below 2^26 the double square root compares as the
    exact one: rounding cannot reach the whole number from below. *)
Lemma np_sqrt_lt_int (n T : Z) :
  0 <= n -> 0 <= T < 2 ^ 26 ->
  ((np_sqrt n < inject_Z T)%Q <-> n < T * T).
Proof.
  intros Hn HT.
  destruct (Z.eq_dec n 0) as [->|Hn0].
  { unfold np_sqrt. cbn [Z.leb Z.compare]. unfold Qlt, inject_Z. simpl. nia. }
  assert (Hpos : 0 < n) by lia.
  destruct (np_sqrt_pos_eq n Hpos) as [s [m [Hs [-> [Hsdef [Hm Hup]]]]]].
  cbv zeta in Hm, Hup.
  rewrite (Qmake_lt_inject_Z m s T Hs).
  set (P := 2 ^ s) in *.
  assert (HP : 0 < P) by (apply Z.pow_pos_nonneg; lia).
  assert (H26 : 2 ^ 26 * 2 ^ 26 = 2 ^ 52) by reflexivity.
  assert (HTT : T * T < 2 ^ 52) by nia.
  set (x := round_int n) in *.
  set (N := x * (P * P)) in *.
  assert (HN0 : 0 <= N).
  { unfold N. assert (0 <= x).
    { unfold x. destruct (Z_lt_le_dec n (2 ^ 53)) as [Hlt|Hge].
      - rewrite round_int_small by exact Hlt. lia.
      - pose proof (round_int_large n Hge). lia. }
    nia. }
  pose proof (Z.sqrt_spec N HN0) as [Hq1 Hq2].
  pose proof (Z.sqrt_nonneg N) as Hq0.
  split.
  - intros Hlt.
    destruct (Z_lt_le_dec n (T * T)) as [|Hge]; [assumption|exfalso].
    assert (Hx : T * T <= x).
    { unfold x. destruct (Z_lt_le_dec n (2 ^ 53)) as [Hsm|Hlg].
      - rewrite round_int_small by exact Hsm. exact Hge.
      - pose proof (round_int_large n Hlg). lia. }
    assert (HNge : (T * P) * (T * P) <= N) by (unfold N; nia).
    assert (Hqge : T * P <= Z.sqrt N).
    { apply Z.sqrt_le_square; [exact HN0 | nia | exact HNge]. }
    lia.
  - intros Hlt.
    assert (Hx : x = n).
    { unfold x. apply round_int_small. change (2 ^ 53) with (2 * 2 ^ 52). lia. }
    assert (Hlog : Z.log2 n < 52).
    { apply Z.log2_lt_pow2; [exact Hpos | lia]. }
    assert (Hb : Z.log2 x / 2 <= 25).
    { rewrite Hx.
      assert (Z.log2 n / 2 < 26) by (apply Z.div_lt_upper_bound; lia). lia. }
    assert (Hs27 : 27 <= s) by lia.
    assert (HPT : T < P).
    { unfold P. apply Z.lt_le_trans with (2 ^ 26); [lia|].
      apply Z.pow_le_mono_r; lia. }
    assert (HNle : N <= (T * P) * (T * P) - P * P).
    { unfold N. rewrite Hx. nia. }
    assert (Hqlt : Z.sqrt N < T * P).
    { apply Z.sqrt_lt_square; [exact HN0 | nia | nia]. }
    destruct (Z.eq_dec m (Z.sqrt N)) as [->|Hne]; [exact Hqlt|].
    assert (Hm1 : m = Z.sqrt N + 1) by lia.
    specialize (Hup Hm1). rewrite Hm1.
    destruct (Z_lt_le_dec (Z.sqrt N + 1) (T * P)) as [|Hge]; [assumption|exfalso].
    assert (Hqeq : Z.sqrt N = T * P - 1) by lia.
    rewrite Hqeq in Hup. nia.
Qed.

Lemma np_sqrt_nonneg (n : Z) : (0 <= np_sqrt n)%Q.
Proof.
  unfold np_sqrt. destruct (n <=? 0); [apply Qle_refl|].
  cbv zeta. set (N := round_int n * _).
  pose proof (Z.sqrt_nonneg N).
  unfold Qle. cbn [Qnum Qden].
  destruct (N - Z.sqrt N * Z.sqrt N <=? Z.sqrt N); lia.
Qed.

(** The test of the program is the comparison of the double root. *)
Lemma sqrt_ltb_computed (n : Z) (t : Q) :
  0 <= n -> (sqrt_ltb n t = true <-> (np_sqrt n < t)%Q).
Proof.
  intros Hn. unfold sqrt_ltb.
  apply Z.leb_le in Hn. rewrite Hn. cbn [andb]. apply lt_spec.
Qed.

(** Against a whole number below 2^26 it is the comparison of the real
    square root. *)
Lemma sqrt_ltb_int (n T : Z) (t : Q) :
  0 <= n -> 0 <= T < 2 ^ 26 -> (t == inject_Z T)%Q ->
  (sqrt_ltb n t = true <-> (sqrt (IZR n) < Q2R t)%R).
Proof.
  intros Hn HT Ht.
  rewrite (sqrt_ltb_computed n t Hn), (Qeq_eqR _ _ Ht), Q2R_inject_Z.
  assert (Hq : (np_sqrt n < t)%Q <-> (np_sqrt n < inject_Z T)%Q).
  { split; intros H; [rewrite <- Ht | rewrite Ht]; exact H. }
  rewrite Hq, (np_sqrt_lt_int n T Hn HT).
  assert (Hn' : (0 <= IZR n)%R) by (apply IZR_le; assumption).
  rewrite (sqrt_lt_squares _ _ Hn'), <- mult_IZR.
  split.
  - intros Hlt. split; apply IZR_lt; nia.
  - intros [_ Hlt]. apply lt_IZR. exact Hlt.
Qed.

Lemma inject_Z_nonzero (n : Z) : n <> 0 -> Qeq_bool (inject_Z n) 0 = false.
Proof.
  intros Hn. destruct (Qeq_bool (inject_Z n) 0) eqn:E; [|reflexivity].
  apply Qeq_bool_eq in E. unfold Qeq in E. simpl in E. lia.
Qed.

Lemma truediv_inject_Z (a : Q) (n : Z) :
  n <> 0 -> truediv a (inject_Z n) = Ok (a / inject_Z n)%Q.
Proof. intros Hn. unfold truediv. rewrite (inject_Z_nonzero n Hn). reflexivity. Qed.

Lemma deque_append_below {A : Type} (maxlen : nat) (d : list A) (x : A) :
  (length d < maxlen)%nat -> deque_append maxlen d x = d ++ [x].
Proof.
  intros Hlen. unfold deque_append.
  destruct (maxlen <? length (d ++ [x]))%nat eqn:E; [|reflexivity].
  apply Nat.ltb_lt in E. rewrite length_app in E. simpl in E. lia.
Qed.

Lemma deque_append_full {A : Type} (maxlen : nat) (d : list A) (x : A) :
  (0 < maxlen)%nat -> (maxlen <= length d)%nat ->
  deque_append maxlen d x = tl d ++ [x].
Proof.
  intros Hpos Hlen. unfold deque_append.
  destruct (maxlen <? length (d ++ [x]))%nat eqn:E.
  - destruct d; [simpl in Hlen; lia | reflexivity].
  - apply Nat.ltb_ge in E. rewrite length_app in E. simpl in E. lia.
Qed.

Lemma deque_append_length {A : Type} (maxlen : nat) (d : list A) (x : A) :
  (length d <= maxlen)%nat -> (length (deque_append maxlen d x) <= maxlen)%nat.
Proof.
  intros Hlen. unfold deque_append.
  destruct (maxlen <? length (d ++ [x]))%nat eqn:E.
  - rewrite length_tl, length_app. simpl. lia.
  - apply Nat.ltb_ge in E. exact E.
Qed.

(** The appended item is the last one. *)
Lemma deque_append_last {A : Type} (d : list A) (x : A) :
  exists a, deque_append tracked_maxlen d x = a ++ [x].
Proof.
  unfold deque_append.
  destruct (tracked_maxlen <? length (d ++ [x]))%nat eqn:E.
  - destruct d as [|y d]; [discriminate E|]. exists d. reflexivity.
  - exists d. reflexivity.
Qed.

Lemma holds_recent_In (p : point) (k : nat) (h : list point) :
  holds_recent p k h -> In p h.
Proof. intros [a [b [-> _]]]. apply in_elt. Qed.

(** An entry followed by fewer than 99 others survives one more [append]. *)
Lemma deque_append_keeps (p : point) (k : nat) (h : list point) (x : point) :
  holds_recent p k h -> (k < 99)%nat ->
  holds_recent p (S k) (deque_append tracked_maxlen h x).
Proof.
  intros [a [b [-> Hb]]] Hk. unfold deque_append.
  rewrite <- app_assoc. cbn [app].
  destruct (tracked_maxlen <? length (a ++ p :: b ++ [x]))%nat eqn:E.
  - destruct a as [|y a].
    + apply Nat.ltb_lt in E. cbn [app length] in E. rewrite length_app in E.
      simpl in E. unfold tracked_maxlen in E. lia.
    + exists a, (b ++ [x]). split; [reflexivity|].
      rewrite length_app. simpl. lia.
  - exists a, (b ++ [x]). split; [reflexivity|].
    rewrite length_app. simpl. lia.
Qed.

Lemma count_true_cons (b : bool) (l : list bool) :
  count_true (b :: l) = (if b then 1 else 0) + count_true l.
Proof.
  unfold count_true. destruct b; cbn [filter length]; lia.
Qed.

Lemma count_true_app (l1 l2 : list bool) :
  count_true (l1 ++ l2) = count_true l1 + count_true l2.
Proof. unfold count_true. rewrite filter_app, length_app. lia. Qed.

Lemma count_true_nonneg (l : list bool) : 0 <= count_true l.
Proof. unfold count_true. lia. Qed.

(** ** Geometry of the two tests *)

Lemma dist2_nonneg (c p : point) : 0 <= dist2 c p.
Proof. destruct c, p. unfold dist2. nia. Qed.

Lemma euclidean_distance_dist2 (c p : point) :
  euclidean_distance c p = sqrt (IZR (dist2 c p)).
Proof.
  destruct c as [cx cy], p as [px py]. unfold euclidean_distance, dist2.
  simpl fst; simpl snd.
  f_equal. rewrite plus_IZR, !Z.pow_2_r, !mult_IZR, !minus_IZR. ring.
Qed.

Lemma is_duplicate_loop_true (threshold : Q) (c : point) (tracked : list point) :
  is_duplicate_loop threshold c tracked = true <->
  exists p, In p tracked /\ sqrt_ltb (dist2 c p) threshold = true.
Proof.
  induction tracked as [|q rest IH]; simpl.
  - split; [discriminate | intros [p [[] _]]].
  - destruct (sqrt_ltb (dist2 c q) threshold) eqn:E.
    + split; [|reflexivity]. intros _. exists q. auto.
    + rewrite IH. split.
      * intros [p [Hin Hp]]. exists p. auto.
      * intros [p [[->|Hin] Hp]]; [congruence|]. exists p. auto.
Qed.

(** The test of one entry is the comparison of the computed distance. *)
Lemma within_threshold (c p : point) (t : Q) :
  sqrt_ltb (dist2 c p) t = true <-> (computed_distance c p < t)%Q.
Proof. apply sqrt_ltb_computed, dist2_nonneg. Qed.

(** Against a whole number of pixels below 2^26 the computed distance compares
    as the Euclidean distance over the reals. *)
Lemma computed_distance_int (c p : point) (T : Z) (t : Q) :
  0 <= T < 2 ^ 26 -> (t == inject_Z T)%Q ->
  ((computed_distance c p < t)%Q <-> (euclidean_distance c p < Q2R t)%R).
Proof.
  intros HT Ht. rewrite <- within_threshold, euclidean_distance_dist2.
  apply (sqrt_ltb_int _ T); [apply dist2_nonneg | exact HT | exact Ht].
Qed.

(** A centre is at computed distance 0 from itself. *)
Lemma computed_distance_self (c : point) (t : Q) :
  (0 < t)%Q -> (computed_distance c c < t)%Q.
Proof.
  intros Ht. unfold computed_distance.
  assert (Hd : dist2 c c = 0) by (destruct c; unfold dist2; ring).
  rewrite Hd. exact Ht.
Qed.

(** ** Shape classifier *)

(** A ratio of at least 3/10 has a positive numerator over a positive height. *)
Lemma ratio_lower_bound_positive (w h : Z) :
  0 < h -> (3 # 10 <= inject_Z w / inject_Z h)%Q -> 0 < w.
Proof.
  intros Hh Hle. destruct h as [|p|p]; try lia.
  unfold Qle, Qdiv, Qmult, Qinv, inject_Z in Hle. simpl in Hle. lia.
Qed.

Section Classifier.

Variable cfg : Config.

Lemma ratio_ok_spec (r : Q) :
  ratio_ok cfg r = true <->
  (fst (aspect_ratio_range cfg) <= r)%Q /\ (r <= snd (aspect_ratio_range cfg))%Q.
Proof. unfold ratio_ok. rewrite andb_true_iff, !le_spec. reflexivity. Qed.

Lemma area_ok_spec (area : Q) :
  area_ok cfg area = true <-> (min_area cfg <= area)%Q /\ (area <= max_area cfg)%Q.
Proof.
  unfold area_ok. rewrite negb_true_iff, orb_false_iff, !lt_false. reflexivity.
Qed.

(** The classifier never raises, and accepts exactly when the three checks pass. *)
Lemma is_box_like_shape_checks (contour : Contour) :
  is_box_like_shape cfg contour =
  Ok (let '(x, y, w, h) := boundingRect contour in
      if area_ok cfg (contourArea contour)
         && ratio_ok cfg (aspect_ratio_of w h)
         && solidity_ok (contourArea contour) (w * h)
      then accepted (boundingRect contour) else rejected).
Proof.
  unfold is_box_like_shape, area_ok, ratio_ok, solidity_ok, aspect_ratio_of, accepted.
  destruct (boundingRect contour) as [[[x y] w] h].
  destruct (lt (contourArea contour) (min_area cfg) || lt (max_area cfg) (contourArea contour));
    [reflexivity|]. cbn [negb andb].
  destruct (0 <? h) eqn:Hh.
  - apply Z.ltb_lt in Hh. rewrite truediv_inject_Z by lia. cbn [bind].
    destruct (le (fst (aspect_ratio_range cfg)) (inject_Z w / inject_Z h)
              && le (inject_Z w / inject_Z h) (snd (aspect_ratio_range cfg)));
      [|reflexivity]. cbn [negb andb].
    destruct (0 <? w * h) eqn:Hwh.
    + apply Z.ltb_lt in Hwh. rewrite truediv_inject_Z by lia. cbn [bind].
      destruct (lt (contourArea contour / inject_Z (w * h)) (3 # 10)); reflexivity.
    + reflexivity.
  - cbn [bind].
    destruct (le (fst (aspect_ratio_range cfg)) 0 && le 0 (snd (aspect_ratio_range cfg)));
      [|reflexivity]. cbn [negb andb].
    destruct (0 <? w * h) eqn:Hwh.
    + apply Z.ltb_lt in Hwh. rewrite truediv_inject_Z by lia. cbn [bind].
      destruct (lt (contourArea contour / inject_Z (w * h)) (3 # 10)); reflexivity.
    + reflexivity.
Qed.

(** C8, amended: a contour whose bounding box has height 0 gets the ordinary
    rejection result, and no exception, unless its area is within
    [min_area, max_area] and 0 is within [aspect_ratio_range]; such a contour
    has area 0, so that every configuration with a positive [min_area] rejects
    it whatever its [aspect_ratio_range]. *)
Theorem zero_height_rejected (contour : Contour) (x y w : Z) :
  boundingRect contour = (x, y, w, 0) ->
  (is_box_like_shape cfg contour = Ok rejected <->
   ~ (((min_area cfg <= contourArea contour)%Q /\
       (contourArea contour <= max_area cfg)%Q) /\
      ((fst (aspect_ratio_range cfg) <= 0)%Q /\
       (0 <= snd (aspect_ratio_range cfg))%Q)))
  /\
  ((contourArea contour == 0)%Q -> (0 < min_area cfg)%Q ->
   is_box_like_shape cfg contour = Ok rejected).
Proof.
  intros Hbox.
  assert (Hiff : is_box_like_shape cfg contour = Ok rejected <->
                 ~ (area_ok cfg (contourArea contour) = true /\ ratio_ok cfg 0 = true)).
  { rewrite is_box_like_shape_checks, Hbox.
    replace (aspect_ratio_of w 0) with 0%Q by reflexivity.
    rewrite Z.mul_0_r. unfold solidity_ok. cbn [Z.ltb Z.compare].
    rewrite andb_true_r.
    destruct (area_ok cfg (contourArea contour)), (ratio_ok cfg 0); cbn [andb];
      split; try reflexivity; try (intros _ [? ?]; discriminate).
    - intros H. discriminate H.
    - intros H. exfalso. apply H. split; reflexivity. }
  rewrite area_ok_spec, ratio_ok_spec in Hiff.
  split; [exact Hiff|].
  intros Hzero Hmin. apply Hiff. intros [[Hlo _] _].
  rewrite Hzero in Hlo. exact (Qlt_not_le _ _ Hmin Hlo).
Qed.

(** C10: the classifier returns a result on every contour, never
    [ZeroDivisionError]: with height 0 the aspect ratio is 0, and with a
    bounding-box area of 0 the solidity check does not run, so that the area
    check and the aspect-ratio check alone decide. *)
Theorem is_box_like_shape_total (contour : Contour) (x y w h : Z) :
  boundingRect contour = (x, y, w, h) ->
  (exists r, is_box_like_shape cfg contour = Ok r) /\
  (h = 0 ->
   is_box_like_shape cfg contour =
   Ok (if area_ok cfg (contourArea contour) && ratio_ok cfg 0
       then accepted (x, y, w, h) else rejected)) /\
  (w * h = 0 ->
   is_box_like_shape cfg contour =
   Ok (if area_ok cfg (contourArea contour) && ratio_ok cfg (aspect_ratio_of w h)
       then accepted (x, y, w, h) else rejected)).
Proof.
  intros Hbox. rewrite is_box_like_shape_checks, Hbox.
  split; [eexists; reflexivity|]. split.
  - intros ->. rewrite Z.mul_0_r. unfold solidity_ok. cbn [Z.ltb Z.compare].
    rewrite andb_true_r. reflexivity.
  - intros ->. unfold solidity_ok. cbn [Z.ltb Z.compare].
    rewrite andb_true_r. reflexivity.
Qed.

End Classifier.

(** Scenario A: the blob is accepted, with the centre of its box as centre. *)
Example scenario_A_accepted :
  is_box_like_shape default_config scenario_A_blob
  = Ok (true, Some (100, 250), Some (75, 225, 50, 50)).
Proof. reflexivity. Qed.

(** Scenario D: an area of 200 is below [min_area]. *)
Example scenario_D_rejected :
  is_box_like_shape default_config
    {| boundingRect := (75, 225, 50, 50); contourArea := 200 |} = Ok rejected.
Proof. reflexivity. Qed.

(** C2: under the default configuration, a contour that the classifier accepts
    has its area within [min_area, max_area], a bounding box of positive width
    and height whose ratio width/height is within [aspect_ratio_range], and a
    solidity area/(width*height) of at least 3/10. *)
Theorem accepted_within_bounds (contour : Contour) (x y w h : Z)
  (center : option point) (bbox : option rect) :
  boundingRect contour = (x, y, w, h) ->
  is_box_like_shape default_config contour = Ok (true, center, bbox) ->
  ((min_area default_config <= contourArea contour)%Q /\
   (contourArea contour <= max_area default_config)%Q) /\
  (0 < w /\ 0 < h) /\
  ((fst (aspect_ratio_range default_config) <= inject_Z w / inject_Z h)%Q /\
   (inject_Z w / inject_Z h <= snd (aspect_ratio_range default_config))%Q) /\
  (3 # 10 <= contourArea contour / inject_Z (w * h))%Q.
Proof.
  intros Hbox Hacc.
  rewrite is_box_like_shape_checks, Hbox in Hacc.
  destruct (area_ok default_config (contourArea contour)) eqn:Harea;
    [|discriminate Hacc].
  destruct (ratio_ok default_config (aspect_ratio_of w h)) eqn:Hratio;
    [|discriminate Hacc].
  destruct (solidity_ok (contourArea contour) (w * h)) eqn:Hsol;
    [|discriminate Hacc].
  apply area_ok_spec in Harea.
  unfold aspect_ratio_of in Hratio.
  destruct (0 <? h) eqn:Hh; [|discriminate Hratio].
  apply Z.ltb_lt in Hh.
  apply ratio_ok_spec in Hratio.
  assert (Hw : 0 < w) by (apply (ratio_lower_bound_positive w h Hh), Hratio).
  unfold solidity_ok in Hsol.
  assert (Hwh : (0 <? w * h) = true) by (apply Z.ltb_lt; nia).
  rewrite Hwh in Hsol. apply negb_true_iff, lt_false in Hsol.
  auto.
Qed.

Lemma accepted_within_bounds_witness :
  ((min_area default_config <= 2000)%Q /\ (2000 <= max_area default_config)%Q) /\
  (0 < 50 /\ 0 < 50) /\
  ((fst (aspect_ratio_range default_config) <= inject_Z 50 / inject_Z 50)%Q /\
   (inject_Z 50 / inject_Z 50 <= snd (aspect_ratio_range default_config))%Q) /\
  (3 # 10 <= 2000 / inject_Z (50 * 50))%Q.
Proof.
  apply (accepted_within_bounds scenario_A_blob 75 225 50 50
           (Some (100, 250)) (Some (75, 225, 50, 50))); reflexivity.
Defined.

(** Against C8 as stated: the empty contour, whose bounding box has height 0, is
    accepted by a configuration whose area bounds admit the area 0 and whose
    aspect-ratio range contains 0; the solidity check does not run. *)
Lemma zero_height_accepted :
  boundingRect empty_contour = (0, 0, 0, 0) /\
  is_box_like_shape range_and_area_from_zero empty_contour
  = Ok (true, Some (0, 0), Some (0, 0, 0, 0)).
Proof. split; reflexivity. Qed.

(** The empty contour under the default configuration: rejected, for its area
    alone already. *)
Lemma zero_height_rejected_witness :
  (is_box_like_shape default_config empty_contour = Ok rejected <->
   ~ (((min_area default_config <= contourArea empty_contour)%Q /\
       (contourArea empty_contour <= max_area default_config)%Q) /\
      ((fst (aspect_ratio_range default_config) <= 0)%Q /\
       (0 <= snd (aspect_ratio_range default_config))%Q)))
  /\
  ((contourArea empty_contour == 0)%Q -> (0 < min_area default_config)%Q ->
   is_box_like_shape default_config empty_contour = Ok rejected).
Proof.
  apply (zero_height_rejected default_config empty_contour 0 0 0).
  reflexivity.
Defined.

Example empty_contour_rejected_by_default :
  is_box_like_shape default_config empty_contour = Ok rejected.
Proof. reflexivity. Qed.

Lemma is_box_like_shape_total_witness :
  (exists r, is_box_like_shape range_and_area_from_zero empty_contour = Ok r) /\
  (0 = 0 ->
   is_box_like_shape range_and_area_from_zero empty_contour =
   Ok (if area_ok range_and_area_from_zero 0 && ratio_ok range_and_area_from_zero 0
       then accepted (0, 0, 0, 0) else rejected)) /\
  (0 * 0 = 0 ->
   is_box_like_shape range_and_area_from_zero empty_contour =
   Ok (if area_ok range_and_area_from_zero 0
          && ratio_ok range_and_area_from_zero (aspect_ratio_of 0 0)
       then accepted (0, 0, 0, 0) else rejected)).
Proof.
  apply (is_box_like_shape_total range_and_area_from_zero empty_contour 0 0 0 0).
  reflexivity.
Defined.

(** ** Crossing and de-duplication tracker *)

Section Tracker.

Variable cfg : Config.

(** The duplicate test against the computed distance. *)
Lemma is_duplicate_object_true (st : State) (c : point) :
  is_duplicate_object cfg st c = true <-> matches_history cfg st c.
Proof.
  unfold is_duplicate_object, matches_history. rewrite is_duplicate_loop_true.
  split; intros [p [Hin Hp]]; exists p; split; try assumption;
    apply within_threshold; assumption.
Qed.

(** The duplicate test against the real distance, for a whole threshold. *)
Lemma is_duplicate_object_true_int (st : State) (c : point) (T : Z) :
  integer_threshold cfg T ->
  (is_duplicate_object cfg st c = true <->
   exists p, In p (tracked_objects st) /\
             (euclidean_distance c p < Q2R (distance_threshold cfg))%R).
Proof.
  intros [HT Ht]. rewrite is_duplicate_object_true. unfold matches_history.
  split; intros [p [Hin Hp]]; exists p; split; try assumption;
    apply (computed_distance_int c p T _ HT Ht); assumption.
Qed.

(** C5, amended: the duplicate test answers true exactly when some entry of the
    whole current history is at a distance from the candidate that, computed in
    double precision, is strictly below [distance_threshold]; a candidate whose
    computed distance to every entry equals the threshold is no duplicate.  For
    a threshold that is a whole number below 2^26, as the default 50, the
    computed distance can be replaced by the Euclidean distance in both
    statements. *)
Theorem is_duplicate_object_iff (st : State) (c : point) :
  ((is_duplicate_object cfg st c = true <->
    exists p, In p (tracked_objects st) /\
              (computed_distance c p < distance_threshold cfg)%Q)
   /\
   ((forall p, In p (tracked_objects st) ->
               (computed_distance c p == distance_threshold cfg)%Q) ->
    is_duplicate_object cfg st c = false))
  /\
  (forall T, integer_threshold cfg T ->
     (is_duplicate_object cfg st c = true <->
      exists p, In p (tracked_objects st) /\
                (euclidean_distance c p < Q2R (distance_threshold cfg))%R)
     /\
     ((forall p, In p (tracked_objects st) ->
                 euclidean_distance c p = Q2R (distance_threshold cfg)) ->
      is_duplicate_object cfg st c = false)).
Proof.
  split; [split|].
  - apply is_duplicate_object_true.
  - intros Heq. apply not_true_is_false. intros E.
    apply is_duplicate_object_true in E. destruct E as [p [Hin Hp]].
    rewrite (Heq p Hin) in Hp. exact (Qlt_irrefl _ Hp).
  - intros T HT. split; [apply (is_duplicate_object_true_int st c T HT)|].
    intros Heq. apply not_true_is_false. intros E.
    apply (is_duplicate_object_true_int st c T HT) in E.
    destruct E as [p [Hin Hp]].
    rewrite (Heq p Hin) in Hp. lra.
Qed.

Lemma has_crossed_line_true (c : point) :
  has_crossed_line cfg c = true <-> at_line cfg c.
Proof.
  destruct c as [cx cy]. unfold has_crossed_line, at_line. simpl. apply Z.leb_le.
Qed.

(** C6: the crossing test answers true exactly when
    [|cy - counting_line_y| <= 10], bound included, whatever the configuration;
    the x coordinate of the centre plays no part. *)
Theorem has_crossed_line_iff (cx cy : Z) :
  (has_crossed_line cfg (cx, cy) = true <-> Z.abs (cy - counting_line_y cfg) <= 10)
  /\ (forall cx', has_crossed_line cfg (cx', cy) = has_crossed_line cfg (cx, cy)).
Proof.
  split.
  - apply (has_crossed_line_true (cx, cy)).
  - intros cx'. reflexivity.
Qed.



Lemma consider_count (st : State) (c : point) :
  object_count (snd (consider cfg st c))
  = object_count st + (if fst (consider cfg st c) then 1 else 0).
Proof.
  unfold consider.
  destruct (has_crossed_line cfg c && negb (is_duplicate_object cfg st c)); simpl; lia.
Qed.

Lemma consider_length (st : State) (c : point) :
  (length (tracked_objects st) <= tracked_maxlen)%nat ->
  (length (tracked_objects (snd (consider cfg st c))) <= tracked_maxlen)%nat.
Proof.
  intros Hlen. unfold consider.
  destruct (has_crossed_line cfg c && negb (is_duplicate_object cfg st c)); simpl.
  - apply deque_append_length. exact Hlen.
  - exact Hlen.
Qed.

(** *** One frame *)

(** [consider] is what [process_frame] does with an accepted contour. *)
Lemma process_frame_single (st : State) (contour : Contour) (c : point)
  (bbox : option rect) :
  is_box_like_shape cfg contour = Ok (true, Some c, bbox) ->
  process_frame cfg st [contour] = Ok (snd (consider cfg st c), [(c, bbox)]).
Proof.
  intros Hacc. unfold process_frame. cbn [process_contours]. rewrite Hacc.
  reflexivity.
Qed.

Lemma process_contours_state (contours : list Contour) :
  forall st detected, exists detected',
    process_contours cfg st contours detected
    = Ok (frame_state cfg st contours, detected').
Proof.
  induction contours as [|contour rest IH]; intros st detected; simpl.
  - eexists. reflexivity.
  - destruct (is_box_like_shape cfg contour) as [[[[] [center|]] bbox]|] eqn:E;
      cbn [bind]; try apply IH.
    rewrite is_box_like_shape_checks in E. discriminate E.
Qed.

Lemma process_frame_state (st : State) (contours : list Contour) :
  exists detected,
    process_frame cfg st contours = Ok (frame_state cfg st contours, detected).
Proof. apply process_contours_state. Qed.

Lemma frame_state_app (a b : list Contour) :
  forall st, frame_state cfg st (a ++ b) = frame_state cfg (frame_state cfg st a) b.
Proof.
  induction a as [|contour rest IH]; intros st; simpl; [reflexivity|].
  classify cfg contour; apply IH.
Qed.

Lemma frame_decisions_app (a b : list Contour) :
  forall st,
    frame_decisions cfg st (a ++ b)
    = frame_decisions cfg st a ++ frame_decisions cfg (frame_state cfg st a) b.
Proof.
  induction a as [|contour rest IH]; intros st; simpl; [reflexivity|].
  classify cfg contour; try apply IH.
  destruct (consider cfg st center) as [counted st'] eqn:E. simpl.
  rewrite IH. reflexivity.
Qed.

(** A property of the state kept by every counting decision is kept by a whole
    frame. *)
Lemma frame_state_preserves (P : State -> Prop) :
  (forall st c, P st -> P (snd (consider cfg st c))) ->
  forall contours st, P st -> P (frame_state cfg st contours).
Proof.
  intros Hstep. induction contours as [|contour rest IH]; intros st HP; simpl.
  - exact HP.
  - classify cfg contour; auto.
Qed.

Lemma frame_state_length (st : State) (contours : list Contour) :
  (length (tracked_objects st) <= tracked_maxlen)%nat ->
  (length (tracked_objects (frame_state cfg st contours)) <= tracked_maxlen)%nat.
Proof.
  apply (frame_state_preserves
           (fun s => (length (tracked_objects s) <= tracked_maxlen)%nat)).
  intros s c. apply consider_length.
Qed.

Lemma frame_state_count (contours : list Contour) :
  forall st,
    object_count (frame_state cfg st contours)
    = object_count st + count_true (frame_decisions cfg st contours).
Proof.
  induction contours as [|contour rest IH]; intros st; simpl.
  - unfold count_true. simpl. lia.
  - classify cfg contour; try apply IH.
    rewrite IH, consider_count.
    destruct (consider cfg st center) as [counted st']. simpl.
    rewrite count_true_cons. lia.
Qed.

Lemma frame_state_monotone (st : State) (contours : list Contour) :
  object_count st <= object_count (frame_state cfg st contours).
Proof.
  rewrite frame_state_count.
  pose proof (count_true_nonneg (frame_decisions cfg st contours)). lia.
Qed.

(** A centre of the history followed by [k] entries is still there after a
    stretch of the frame in which fewer than [100 - k] candidates are counted. *)
Lemma frame_state_keeps (p : point) (mid : list Contour) :
  forall st k,
    holds_recent p k (tracked_objects st) ->
    Z.of_nat k + count_true (frame_decisions cfg st mid) < 100 ->
    In p (tracked_objects (frame_state cfg st mid)).
Proof.
  induction mid as [|contour rest IH]; intros st k Hp Hk; simpl in *.
  - apply (holds_recent_In p k). exact Hp.
  - classify cfg contour; try (apply (IH st k Hp Hk)).
    unfold consider in *.
    destruct (has_crossed_line cfg center && negb (is_duplicate_object cfg st center)).
    + rewrite count_true_cons in Hk. cbn [snd].
      pose proof (count_true_nonneg
        (frame_decisions cfg
           {| object_count := object_count st + 1;
              tracked_objects := deque_append tracked_maxlen (tracked_objects st) center |}
           rest)) as Hnn.
      apply (IH _ (S k)).
      * simpl. apply deque_append_keeps; [exact Hp | lia].
      * lia.
    + rewrite count_true_cons in Hk. cbn [snd]. apply (IH st k Hp). lia.
Qed.

(** C9, amended: in one [process_frame] call the history is updated at each
    count, so that when a candidate of the frame is counted, a later candidate
    of the same frame whose centre is strictly within [distance_threshold] of
    the counted centre (by the distance computed in double precision, or, for
    a threshold that is a whole number below 2^26, by the Euclidean distance)
    is found to be a duplicate and is not counted, as long as fewer than 100
    candidates were counted between the two. *)
Theorem later_duplicate_suppressed (st : State)
  (pre mid post : list Contour) (c1 c2 : Contour)
  (p1 p2 : point) (b1 b2 : option rect) :
  is_box_like_shape cfg c1 = Ok (true, Some p1, b1) ->
  is_box_like_shape cfg c2 = Ok (true, Some p2, b2) ->
  fst (consider cfg (frame_state cfg st pre) p1) = true ->
  ((computed_distance p2 p1 < distance_threshold cfg)%Q \/
   (exists T, integer_threshold cfg T /\
              (euclidean_distance p2 p1 < Q2R (distance_threshold cfg))%R)) ->
  count_true (frame_decisions cfg (snd (consider cfg (frame_state cfg st pre) p1)) mid)
  < 100 ->
  let st2 := frame_state cfg (snd (consider cfg (frame_state cfg st pre) p1)) mid in
  is_duplicate_object cfg st2 p2 = true /\
  consider cfg st2 p2 = (false, st2) /\
  frame_state cfg st (pre ++ c1 :: mid ++ c2 :: post) = frame_state cfg st2 post /\
  frame_decisions cfg st (pre ++ c1 :: mid ++ c2 :: post)
  = frame_decisions cfg st pre
    ++ true :: frame_decisions cfg (snd (consider cfg (frame_state cfg st pre) p1)) mid
    ++ false :: frame_decisions cfg st2 post.
Proof.
  intros Hc1 Hc2 Hcounted Hnear' Hfew st2.
  assert (Hnear : (computed_distance p2 p1 < distance_threshold cfg)%Q).
  { destruct Hnear' as [H|[T [[HT Ht] H]]]; [exact H|].
    apply (computed_distance_int p2 p1 T _ HT Ht). exact H. }
  set (st1 := frame_state cfg st pre) in *.
  assert (Hdup : is_duplicate_object cfg st2 p2 = true).
  { apply is_duplicate_object_true. exists p1. split; [|exact Hnear].
    apply (frame_state_keeps p1 mid _ 0%nat); [|simpl; lia].
    unfold consider in *.
    destruct (has_crossed_line cfg p1 && negb (is_duplicate_object cfg st1 p1));
      [|discriminate Hcounted].
    cbn [snd tracked_objects].
    destruct (deque_append_last (tracked_objects st1) p1) as [a ->].
    exists a, []. split; [reflexivity | simpl; lia]. }
  assert (Hcons : consider cfg st2 p2 = (false, st2)).
  { unfold consider. rewrite Hdup, andb_false_r. reflexivity. }
  split; [exact Hdup|]. split; [exact Hcons|]. split.
  - rewrite frame_state_app. cbn [frame_state]. rewrite Hc1.
    fold st1. rewrite frame_state_app. cbn [frame_state]. rewrite Hc2.
    fold st2. rewrite Hcons. reflexivity.
  - rewrite frame_decisions_app. f_equal. cbn [frame_decisions]. rewrite Hc1.
    fold st1. destruct (consider cfg st1 p1) as [counted st1'] eqn:E.
    cbn [fst snd] in *. subst counted. f_equal.
    rewrite frame_decisions_app. f_equal. cbn [frame_decisions]. rewrite Hc2.
    fold st2. rewrite Hcons. reflexivity.
Qed.

(** *** Sequences of frames and the loop of [run] *)

Lemma process_frames_state (frames : list (list Contour)) :
  forall st, exists st',
    process_frames cfg st frames = Ok st' /\
    object_count st' = object_count st + count_true (frames_decisions cfg st frames).
Proof.
  induction frames as [|contours rest IH]; intros st; simpl.
  - exists st. split; [reflexivity|]. unfold count_true. simpl. lia.
  - destruct (process_frame_state st contours) as [detected ->]. cbn [bind fst].
    destruct (IH (frame_state cfg st contours)) as [st' [-> Hcount]].
    exists st'. split; [reflexivity|].
    rewrite Hcount, frame_state_count, count_true_app. lia.
Qed.

Lemma run_iteration_state (st : State) (contours : list Contour) (key : Key) :
  run_iteration cfg st contours key =
  Ok (match key with KeyR => reset (frame_state cfg st contours)
                   | _ => frame_state cfg st contours end,
      match key with KeyQ => false | _ => true end).
Proof.
  unfold run_iteration.
  destruct (process_frame_state st contours) as [detected ->]. cbn [bind fst].
  destruct key; reflexivity.
Qed.

Lemma frame_state_reachable (st : State) (contours : list Contour) :
  reachable cfg st -> reachable cfg (frame_state cfg st contours).
Proof.
  intros Hst. destruct (process_frame_state st contours) as [detected Hrun].
  exact (reach_frame cfg st contours _ detected Hst Hrun).
Qed.

Lemma run_reachable (frames : list (list Contour * Key)) :
  forall st, reachable cfg st ->
  exists st', run cfg st frames = Ok st' /\ reachable cfg st'.
Proof.
  induction frames as [|[contours key] rest IH]; intros st Hst; simpl.
  - exists st. auto.
  - rewrite run_iteration_state. cbn [bind fst snd].
    pose proof (frame_state_reachable st contours Hst) as Hframe.
    destruct key.
    + eexists. split; [reflexivity | exact Hframe].
    + apply IH. apply reach_reset. exact Hframe.
    + apply IH. exact Hframe.
Qed.

Lemma reachable_length (st : State) :
  reachable cfg st -> (length (tracked_objects st) <= tracked_maxlen)%nat.
Proof.
  induction 1 as [|st contours st' detected Hst IH Hrun|st Hst IH].
  - simpl. unfold tracked_maxlen. lia.
  - destruct (process_frame_state st contours) as [detected' Hrun'].
    rewrite Hrun' in Hrun. injection Hrun as <- _.
    apply frame_state_length. exact IH.
  - simpl. unfold tracked_maxlen. lia.
Qed.

(** C3: over any sequence of [process_frame] calls, [object_count] grows by the
    number of true decisions of the tracker, so that from the initial state it
    equals that number; no [process_frame] call lowers it, and an iteration of
    [run] lowers it only by the reset of the key 'r'. *)
Theorem object_count_counts_decisions :
  (forall frames st, exists st',
     process_frames cfg st frames = Ok st' /\
     object_count st'
     = object_count st + count_true (frames_decisions cfg st frames))
  /\
  (forall frames, exists st',
     process_frames cfg init_state frames = Ok st' /\
     object_count st' = count_true (frames_decisions cfg init_state frames))
  /\
  (forall st contours, exists st' detected,
     process_frame cfg st contours = Ok (st', detected) /\
     object_count st <= object_count st')
  /\
  (forall st contours key, exists st' continue,
     run_iteration cfg st contours key = Ok (st', continue) /\
     (key <> KeyR -> object_count st <= object_count st') /\
     (key = KeyR -> object_count st' = 0)).
Proof.
  split; [|split; [|split]].
  - intros frames st. apply process_frames_state.
  - intros frames.
    destruct (process_frames_state frames init_state) as [st' [Hrun Hcount]].
    exists st'. split; [exact Hrun|]. rewrite Hcount. simpl. lia.
  - intros st contours.
    destruct (process_frame_state st contours) as [detected Hrun].
    exists (frame_state cfg st contours), detected.
    split; [exact Hrun | apply frame_state_monotone].
  - intros st contours key. rewrite run_iteration_state.
    do 2 eexists. split; [reflexivity|]. split.
    + intros Hkey. destruct key; try contradiction; apply frame_state_monotone.
    + intros ->. reflexivity.
Qed.

(** C4: in every state reached by [process_frame] calls and resets, and at the
    end of every [run], the history holds at most 100 entries, a bound that each
    single decision keeps; a count made while the history holds 100 entries
    drops the oldest one and keeps 100. *)
Theorem history_bounded :
  (forall st, reachable cfg st -> (length (tracked_objects st) <= 100)%nat)
  /\
  (forall st c,
     (length (tracked_objects st) <= 100)%nat ->
     (length (tracked_objects (snd (consider cfg st c))) <= 100)%nat)
  /\
  (forall frames, exists st,
     run cfg init_state frames = Ok st /\ (length (tracked_objects st) <= 100)%nat)
  /\
  (forall st c,
     length (tracked_objects st) = 100%nat ->
     fst (consider cfg st c) = true ->
     tracked_objects (snd (consider cfg st c)) = tl (tracked_objects st) ++ [c] /\
     length (tracked_objects (snd (consider cfg st c))) = 100%nat).
Proof.
  split; [|split; [|split]].
  - intros st Hst. apply (reachable_length st Hst).
  - intros st c. apply consider_length.
  - intros frames.
    destruct (run_reachable frames init_state (reach_init cfg)) as [st [Hrun Hst]].
    exists st. split; [exact Hrun | apply (reachable_length st Hst)].
  - intros st c Hlen Hcounted. unfold consider in *.
    destruct (has_crossed_line cfg c && negb (is_duplicate_object cfg st c));
      [|discriminate Hcounted]. simpl.
    rewrite deque_append_full by (unfold tracked_maxlen; lia).
    split; [reflexivity|].
    rewrite length_app, length_tl, Hlen. reflexivity.
Qed.

(** C7: the reset leaves [object_count = 0] and an empty history, both at once:
    an iteration of [run] either resets both (key 'r') or resets nothing; and a
    centre that was counted before is counted again right after a reset, which
    brings [object_count] to 1. *)
Theorem reset_clears :
  (forall st, reset st = {| object_count := 0; tracked_objects := [] |})
  /\
  (forall st contours key, exists st' continue,
     run_iteration cfg st contours key = Ok (st', continue) /\
     (key = KeyR -> st' = {| object_count := 0; tracked_objects := [] |}) /\
     (key <> KeyR -> st' = frame_state cfg st contours))
  /\
  (forall st c st1 st2,
     consider cfg st c = (true, st1) ->
     consider cfg (reset st2) c
     = (true, {| object_count := 1; tracked_objects := [c] |})).
Proof.
  split; [|split].
  - reflexivity.
  - intros st contours key. rewrite run_iteration_state.
    do 2 eexists. split; [reflexivity|]. split.
    + intros ->. reflexivity.
    + intros Hkey. destruct key; try contradiction; reflexivity.
  - intros st c st1 st2 Hcounted. unfold consider in *.
    destruct (has_crossed_line cfg c); [|discriminate Hcounted].
    reflexivity.
Qed.

End Tracker.

(** ** The theorems at concrete inputs *)

(** A real square root is below a positive rational whose square is above the
    argument. *)
Lemma sqrt_below (n : Z) (t : Q) :
  0 <= n -> (0 < t)%Q -> (inject_Z n < t * t)%Q -> (sqrt (IZR n) < Q2R t)%R.
Proof.
  intros Hn Ht Hlt.
  apply sqrt_lt_squares; [apply IZR_le; exact Hn|]. split.
  - apply Qlt_Rlt in Ht. rewrite RMicromega.Q2R_0 in Ht. exact Ht.
  - apply Qlt_Rlt in Hlt. rewrite Q2R_mult, Q2R_inject_Z in Hlt. exact Hlt.
Qed.

(** The default threshold is a whole number. *)
Lemma default_threshold_integer : integer_threshold default_config 50.
Proof. split; [lia | reflexivity]. Qed.


(** The decision on a full history, in its three cases: counted with eviction
    of (110, 250); a duplicate of (160, 250); off the line. *)
Example consider_on_full_history :
  consider default_config state_full (10, 249)
  = (true,
     {| object_count := 101;
        tracked_objects := tl (tracked_objects state_full) ++ [(10, 249)] |}) /\
  consider default_config state_full (165, 255) = (false, state_full) /\
  consider default_config state_full (10, 261) = (false, state_full).
Proof. repeat split; vm_compute; reflexivity. Qed.

Lemma object_count_counts_decisions_witness :
  exists st',
    process_frames default_config init_state five_frames = Ok st' /\
    object_count st'
    = count_true (frames_decisions default_config init_state five_frames).
Proof.
  exact (proj1 (proj2 (object_count_counts_decisions default_config)) five_frames).
Defined.

Lemma history_bounded_witness :
  (length (tracked_objects state_A) <= 100)%nat.
Proof.
  apply (proj1 (history_bounded default_config)).
  apply (reach_frame default_config init_state [scenario_A_blob] _
           [((100, 250), Some (75, 225, 50, 50))]).
  - apply reach_init.
  - reflexivity.
Defined.

(** A centre at distance exactly 50 from the only entry of the history, under
    the default threshold 50. *)
Lemma is_duplicate_object_iff_witness :
  is_duplicate_object default_config state_A (130, 290) = false.
Proof.
  apply (proj2 (proj2 (is_duplicate_object_iff default_config state_A (130, 290))
                  50 default_threshold_integer)).
  intros p [<-|[]].
  rewrite euclidean_distance_dist2.
  change (dist2 (130, 290) (100, 250)) with 2500.
  replace (IZR 2500) with (50 * 50)%R by lra.
  rewrite sqrt_square by lra.
  unfold Q2R. simpl. lra.
Defined.

(** One pixel closer, the centre is a duplicate. *)
Example is_duplicate_object_inside :
  is_duplicate_object default_config state_A (130, 289) = true.
Proof. vm_compute. reflexivity. Qed.

(** Against C5 as stated: with [distance_threshold=1.4142135623730951] the
    centre (101, 251) is at a Euclidean distance from the entry (100, 250), the
    square root of 2, that is strictly below the threshold; but the distance
    that the test computes is the threshold itself, and the test answers
    false. *)
Lemma rounded_distance_not_duplicate :
  (euclidean_distance (101, 251)%Z (100, 250)%Z
   < Q2R (distance_threshold sqrt2_config))%R /\
  (computed_distance (101, 251)%Z (100, 250)%Z
   == distance_threshold sqrt2_config)%Q /\
  is_duplicate_object sqrt2_config state_A (101, 251) = false.
Proof.
  split; [|split].
  - rewrite euclidean_distance_dist2.
    apply sqrt_below; [apply dist2_nonneg | |]; vm_compute; reflexivity.
  - vm_compute. reflexivity.
  - vm_compute. reflexivity.
Qed.

(** The band of the default line: 240 and 260 are inside, 239 and 261 are not;
    the centre (100, 400) of scenario C is not at the line. *)
Example has_crossed_line_band :
  has_crossed_line default_config (0, 240) = true /\
  has_crossed_line default_config (0, 260) = true /\
  has_crossed_line default_config (0, 239) = false /\
  has_crossed_line default_config (0, 261) = false /\
  has_crossed_line default_config (100, 400) = false.
Proof. repeat split. Qed.

(** Scenario E, second half: the centre of scenario A, counted from the initial
    state, is counted again after a reset of a state with five counts. *)
Lemma reset_clears_witness :
  consider default_config (reset state_five) (100, 250) = (true, state_A).
Proof.
  apply (proj2 (proj2 (reset_clears default_config))
           init_state (100, 250) state_A).
  reflexivity.
Defined.

(** Two bars 12 pixels apart in one frame, their centres (10, 249) and
    (42, 251) about 32 pixels apart: the second one is not counted. *)
Lemma later_duplicate_suppressed_witness :
  let st2 := frame_state default_config
               (snd (consider default_config
                       (frame_state default_config init_state []) (10, 249))) [] in
  is_duplicate_object default_config st2 (42, 251) = true /\
  consider default_config st2 (42, 251) = (false, st2) /\
  frame_state default_config init_state
    ([] ++ bar_at 0 219 :: [] ++ bar_at 32 221 :: [])
  = frame_state default_config st2 [] /\
  frame_decisions default_config init_state
    ([] ++ bar_at 0 219 :: [] ++ bar_at 32 221 :: [])
  = frame_decisions default_config init_state []
    ++ true :: frame_decisions default_config
                 (snd (consider default_config
                         (frame_state default_config init_state []) (10, 249))) []
    ++ false :: frame_decisions default_config st2 [].
Proof.
  apply (later_duplicate_suppressed default_config init_state [] [] []
           (bar_at 0 219) (bar_at 32 221) (10, 249) (42, 251)
           (Some (0, 219, 20, 60)) (Some (32, 221, 20, 60))).
  - reflexivity.
  - reflexivity.
  - reflexivity.
  - left. apply within_threshold. vm_compute. reflexivity.
  - vm_compute. reflexivity.
Defined.

(** Against C9 as stated.  In [wide_frame] the first bar is counted and the
    last one, whose centre is about 32 pixels from the centre of the first,
    well within the default threshold 50, is counted too: the hundred counts
    in between have pushed the first centre out of the history.  The same
    happens when the contours come in the opposite order.  And with the double
    nearest to the square root of 1028 as threshold, the two neighbouring bars
    alone are both counted, although the Euclidean distance of their centres,
    that square root, is strictly below the threshold. *)
Lemma wide_frame_counts_neighbour :
  (is_box_like_shape default_config (bar_at 0 219)
   = Ok (true, Some (10, 249), Some (0, 219, 20, 60)) /\
   is_box_like_shape default_config (bar_at 32 221)
   = Ok (true, Some (42, 251), Some (32, 221, 20, 60)) /\
   (euclidean_distance (42, 251)%Z (10, 249)%Z
    < Q2R (distance_threshold default_config))%R /\
   frame_decisions default_config init_state wide_frame = repeat true 102 /\
   frame_decisions default_config init_state (rev wide_frame) = repeat true 102)
  /\
  ((euclidean_distance (42, 251)%Z (10, 249)%Z
    < Q2R (distance_threshold sqrt1028_config))%R /\
   frame_decisions sqrt1028_config init_state two_bars = [true; true]).
Proof.
  repeat split; try (vm_compute; reflexivity);
    rewrite euclidean_distance_dist2;
    (apply sqrt_below; [apply dist2_nonneg | |]; vm_compute; reflexivity).
Qed.

(** ** The scenarios of the specification *)

(** Scenario A: one blob on the line, empty history: counted. *)
Example scenario_A :
  process_frame default_config init_state [scenario_A_blob]
  = Ok (state_A, [((100, 250), Some (75, 225, 50, 50))]).
Proof. reflexivity. Qed.

(** Scenario B: the blob is seen again at (102, 251) in the next frame: not
    counted. *)
Example scenario_B :
  process_frames default_config init_state [[scenario_A_blob]; [blob_at 102 251]]
  = Ok state_A.
Proof. reflexivity. Qed.

(** Scenario C: a blob at (100, 400) is detected and not counted. *)
Example scenario_C :
  process_frame default_config init_state [blob_at 100 400]
  = Ok (init_state, [((100, 400), Some (75, 375, 50, 50))]).
Proof. reflexivity. Qed.

(** Scenario D: a region of area 200 leaves no trace. *)
Example scenario_D :
  process_frame default_config init_state
    [{| boundingRect := (75, 225, 50, 50); contourArea := 200 |}]
  = Ok (init_state, []).
Proof. reflexivity. Qed.

(** Scenario E: five counts, the key 'r' at the fifth frame, then the blob of
    scenario A again. *)
Example scenario_E :
  process_frames default_config init_state five_frames
  = Ok state_five
  /\
  run default_config init_state
    [([blob_at 100 250], KeyOther); ([blob_at 200 250], KeyOther);
     ([blob_at 300 250], KeyOther); ([blob_at 400 250], KeyOther);
     ([blob_at 500 250], KeyR)]
  = Ok init_state
  /\
  run default_config init_state
    [([blob_at 100 250], KeyOther); ([blob_at 200 250], KeyOther);
     ([blob_at 300 250], KeyOther); ([blob_at 400 250], KeyOther);
     ([blob_at 500 250], KeyR); ([scenario_A_blob], KeyOther)]
  = Ok state_A.
Proof. repeat split. Qed.

(** The key 'q' ends the loop: the frames after it are not processed. *)
Example run_stops_at_q :
  run default_config init_state
    [([blob_at 100 250], KeyQ); ([blob_at 300 250], KeyOther)]
  = Ok state_A.
Proof. reflexivity. Qed.

(** ** More on the shape classifier *)

Lemma solidity_ok_spec (area : Q) (rect_area : Z) :
  solidity_ok area rect_area = true <->
  (0 < rect_area -> (3 # 10 <= area / inject_Z rect_area)%Q).
Proof.
  unfold solidity_ok. destruct (0 <? rect_area) eqn:E.
  - apply Z.ltb_lt in E. rewrite negb_true_iff, lt_false. tauto.
  - apply Z.ltb_ge in E. split; [lia | reflexivity].
Qed.

(** From a quotient bounded below to a product bounded above. *)
Lemma Qle_div_mult (a b c : Q) :
  (0 < c)%Q -> (a <= b / c)%Q -> (a * c <= b)%Q.
Proof.
  intros Hc H.
  apply (Qmult_le_compat_r _ _ c) in H; [|apply Qlt_le_weak; exact Hc].
  rewrite (Qmult_comm (b / c) c), Qmult_div_r in H; [exact H|].
  intros Heq. rewrite Heq in Hc. exact (Qlt_irrefl 0 Hc).
Qed.

Section ClassifierMore.

Variable cfg : Config.

(** The answer of the classifier and the three checks, on exact quotients. *)
Lemma is_box_like_shape_accepts_checks (contour : Contour) (x y w h : Z) :
  boundingRect contour = (x, y, w, h) ->
  (is_box_like_shape cfg contour
   = Ok (true, Some (x + w / 2, y + h / 2), Some (x, y, w, h))
   \/ is_box_like_shape cfg contour = Ok (false, None, None))
  /\
  (is_box_like_shape cfg contour
   = Ok (true, Some (x + w / 2, y + h / 2), Some (x, y, w, h))
   <->
   ((min_area cfg <= contourArea contour)%Q /\
    (contourArea contour <= max_area cfg)%Q) /\
   ((fst (aspect_ratio_range cfg) <= aspect_ratio_of w h)%Q /\
    (aspect_ratio_of w h <= snd (aspect_ratio_range cfg))%Q) /\
   (0 < w * h -> (3 # 10 <= contourArea contour / inject_Z (w * h))%Q)).
Proof.
  intros Hbox. rewrite is_box_like_shape_checks, Hbox.
  rewrite <- area_ok_spec, <- ratio_ok_spec, <- solidity_ok_spec.
  unfold accepted, rejected.
  destruct (area_ok cfg (contourArea contour)),
           (ratio_ok cfg (aspect_ratio_of w h)),
           (solidity_ok (contourArea contour) (w * h)); cbn [andb];
    (split; [auto | split; [intros; try discriminate; auto
                           | intros [? [? ?]]; try discriminate; auto]]).
Qed.

(** X1: for every configuration the classifier answers either with the
    rejection triple or with [True], the integer midpoint of the bounding box
    and the bounding box itself.  Under the default configuration, for a box
    of 32-bit size and an area that is a multiple of 1/2 (what OpenCV returns
    for a contour), it accepts exactly when the area is within [1000, 50000],
    the height is positive with a ratio width/height within [3/10, 3], and the
    solidity area/(width*height) is at least 3/10. *)
Theorem is_box_like_shape_accepts_iff (contour : Contour) (x y w h k : Z) :
  boundingRect contour = (x, y, w, h) ->
  (is_box_like_shape cfg contour
   = Ok (true, Some (x + w / 2, y + h / 2), Some (x, y, w, h))
   \/ is_box_like_shape cfg contour = Ok (false, None, None))
  /\
  (0 <= w < 2 ^ 31 -> 0 <= h < 2 ^ 31 -> (contourArea contour == k # 2)%Q ->
   (is_box_like_shape default_config contour
    = Ok (true, Some (x + w / 2, y + h / 2), Some (x, y, w, h))
    <->
    ((1000 <= contourArea contour)%Q /\ (contourArea contour <= 50000)%Q) /\
    (0 < h /\ (3 # 10 <= inject_Z w / inject_Z h)%Q /\
              (inject_Z w / inject_Z h <= 3)%Q) /\
    (3 # 10 <= contourArea contour / inject_Z (w * h))%Q)).
Proof.
  intros Hbox. split; [apply (is_box_like_shape_accepts_checks contour x y w h Hbox)|].
  intros Hw Hh _.
  rewrite is_box_like_shape_checks, Hbox.
  assert (Hacc : forall b : bool,
            (Ok (if b then accepted (x, y, w, h) else rejected)
             = Ok (true, Some (x + w / 2, y + h / 2), Some (x, y, w, h)))
            <-> b = true).
  { intros []; unfold accepted, rejected;
      split; intros H; try reflexivity; discriminate H. }
  rewrite Hacc, !andb_true_iff, area_ok_spec, ratio_ok_spec, solidity_ok_spec.
  change (min_area default_config) with 1000%Q.
  change (max_area default_config) with 50000%Q.
  change (fst (aspect_ratio_range default_config)) with (3 # 10)%Q.
  change (snd (aspect_ratio_range default_config)) with 3%Q.
  unfold aspect_ratio_of.
  destruct (0 <? h) eqn:Eh.
  - apply Z.ltb_lt in Eh. split.
    + intros [[Ha [Rlo Rhi]] Hs]. split; [exact Ha|]. split; [auto|].
      apply Hs. pose proof (ratio_lower_bound_positive w h Eh Rlo). nia.
    + intros [Ha [[_ [Rlo Rhi]] Hs]]. auto.
  - apply Z.ltb_ge in Eh. split.
    + intros [[_ [Rlo _]] _]. exfalso. revert Rlo. apply Qlt_not_le. reflexivity.
    + intros [_ [[Hpos _] _]]. lia.
Qed.

(** X2: the centre returned for an accepted contour lies in its bounding box,
    and strictly before the far edge in each dimension of positive extent. *)
Theorem center_in_bounding_box (contour : Contour) (x y w h cx cy : Z)
  (bbox : option rect) :
  boundingRect contour = (x, y, w, h) ->
  0 <= w -> 0 <= h ->
  is_box_like_shape cfg contour = Ok (true, Some (cx, cy), bbox) ->
  (x <= cx <= x + w /\ y <= cy <= y + h) /\
  (0 < w -> cx < x + w) /\ (0 < h -> cy < y + h) /\
  bbox = Some (x, y, w, h).
Proof.
  intros Hbox Hw Hh Hacc.
  rewrite is_box_like_shape_checks, Hbox in Hacc.
  destruct (area_ok cfg (contourArea contour)
            && ratio_ok cfg (aspect_ratio_of w h)
            && solidity_ok (contourArea contour) (w * h));
    [|discriminate Hacc].
  cbv beta iota delta [accepted] in Hacc. injection Hacc as Hcx Hcy Hb.
  subst cx cy bbox.
  repeat split; intros; Z.div_mod_to_equations; lia.
Qed.

(** X3: a configuration with [max_area < min_area], or with an aspect-ratio
    range whose upper end is below its lower end, rejects every contour. *)
Theorem empty_range_rejects_all (contour : Contour) :
  (max_area cfg < min_area cfg)%Q \/
  (snd (aspect_ratio_range cfg) < fst (aspect_ratio_range cfg))%Q ->
  is_box_like_shape cfg contour = Ok rejected.
Proof.
  intros Hempty. rewrite is_box_like_shape_checks.
  destruct (boundingRect contour) as [[[x y] w] h].
  destruct (area_ok cfg (contourArea contour)) eqn:Harea;
    [|reflexivity].
  destruct (ratio_ok cfg (aspect_ratio_of w h)) eqn:Hratio;
    [|reflexivity].
  exfalso.
  apply area_ok_spec in Harea. apply ratio_ok_spec in Hratio.
  destruct Harea as [Hlo Hhi], Hratio as [Rlo Rhi].
  destruct Hempty as [H|H].
  - exact (Qlt_not_le _ _ H (Qle_trans _ _ _ Hlo Hhi)).
  - exact (Qlt_not_le _ _ H (Qle_trans _ _ _ Rlo Rhi)).
Qed.

End ClassifierMore.

(** What acceptance under the default configuration gives, in integers. *)
Lemma default_accepted_integers (contour : Contour) (x y w h : Z)
  (center : option point) (bbox : option rect) :
  boundingRect contour = (x, y, w, h) ->
  is_box_like_shape default_config contour = Ok (true, center, bbox) ->
  0 < w /\ 0 < h /\ 3 * h <= 10 * w /\ w <= 3 * h /\ 3 * (w * h) <= 500000.
Proof.
  intros Hbox Hacc.
  rewrite is_box_like_shape_checks, Hbox in Hacc.
  destruct (area_ok default_config (contourArea contour)) eqn:Harea;
    [|discriminate Hacc].
  destruct (ratio_ok default_config (aspect_ratio_of w h)) eqn:Hratio;
    [|discriminate Hacc].
  destruct (solidity_ok (contourArea contour) (w * h)) eqn:Hsol;
    [|discriminate Hacc].
  apply area_ok_spec in Harea. destruct Harea as [_ Hmax].
  unfold aspect_ratio_of in Hratio.
  destruct (0 <? h) eqn:Hh; [|discriminate Hratio].
  apply Z.ltb_lt in Hh.
  apply ratio_ok_spec in Hratio. destruct Hratio as [Rlo Rhi].
  assert (Hw : 0 < w) by (apply (ratio_lower_bound_positive w h Hh), Rlo).
  assert (Hwh : 0 < w * h) by nia.
  pose proof (proj1 (solidity_ok_spec _ _) Hsol Hwh) as Hs.
  apply Qle_div_mult in Hs;
    [|unfold Qlt, inject_Z; simpl; lia].
  pose proof (Qle_trans _ _ _ Hs Hmax) as Hprod.
  assert (Hp : 3 * (w * h) <= 500000).
  { unfold Qle, Qmult, inject_Z, default_config in Hprod.
    cbn [Qnum Qden max_area] in Hprod. lia. }
  assert (Hr : 3 * h <= 10 * w /\ w <= 3 * h).
  { destruct h as [|p|p]; try lia.
    unfold Qle, Qdiv, Qmult, Qinv, inject_Z in Rlo, Rhi.
    simpl in Rlo, Rhi. lia. }
  lia.
Qed.

(** X4: under the default configuration no accepted bounding box is wider than
    707 or higher than 745, and none has more than 166666 square pixels. *)
Theorem default_accepted_box_size (contour : Contour) (x y w h : Z)
  (center : option point) (bbox : option rect) :
  boundingRect contour = (x, y, w, h) ->
  is_box_like_shape default_config contour = Ok (true, center, bbox) ->
  0 < w <= 707 /\ 0 < h <= 745 /\ w * h <= 166666.
Proof.
  intros Hbox Hacc.
  destruct (default_accepted_integers contour x y w h center bbox Hbox Hacc)
    as [Hw [Hh [Hlo [Hhi Hprod]]]].
  repeat split; try lia; nia.
Qed.

(** ** More on the tracker *)

Lemma In_deque_append {A : Type} (maxlen : nat) (d : list A) (x q : A) :
  In q (deque_append maxlen d x) -> In q d \/ q = x.
Proof.
  unfold deque_append. intros Hin.
  assert (Hin' : In q (d ++ [x])).
  { destruct (maxlen <? length (d ++ [x]))%nat; [|exact Hin].
    destruct (d ++ [x]) as [|y l]; [exact Hin | right; exact Hin]. }
  apply in_app_or in Hin'. destruct Hin' as [H|[H|[]]]; auto.
Qed.

Lemma pairwise_apart_tl (t : Q) (h : list point) :
  pairwise_apart t h -> pairwise_apart t (tl h).
Proof. destruct h as [|p rest]; simpl; tauto. Qed.

Lemma dist2_sym (c p : point) : dist2 c p = dist2 p c.
Proof. destruct c, p. unfold dist2. ring. Qed.

Lemma euclidean_distance_sym (c p : point) :
  euclidean_distance c p = euclidean_distance p c.
Proof. rewrite !euclidean_distance_dist2, dist2_sym. reflexivity. Qed.

Lemma pairwise_apart_snoc (t : Q) (h : list point) (c : point) :
  pairwise_apart t h ->
  (forall p, In p h -> ~ (computed_distance c p < t)%Q) ->
  pairwise_apart t (h ++ [c]).
Proof.
  induction h as [|p rest IH]; cbn [pairwise_apart app]; intros Hh Hc.
  - split; [intros q [] | exact I].
  - destruct Hh as [Hp Hrest]. split.
    + intros q Hq. apply in_app_or in Hq. destruct Hq as [Hq|[<-|[]]].
      * apply Hp. exact Hq.
      * apply Hc. left. reflexivity.
    + apply IH; [exact Hrest|]. intros q Hq. apply Hc. right. exact Hq.
Qed.

Lemma pairwise_apart_deque_append (t : Q) (h : list point) (c : point) :
  pairwise_apart t h ->
  (forall p, In p h -> ~ (computed_distance c p < t)%Q) ->
  pairwise_apart t (deque_append tracked_maxlen h c).
Proof.
  intros Hh Hc. unfold deque_append.
  destruct (tracked_maxlen <? length (h ++ [c]))%nat.
  - apply pairwise_apart_tl, pairwise_apart_snoc; assumption.
  - apply pairwise_apart_snoc; assumption.
Qed.

Lemma pairwise_apart_NoDup (t : Q) (h : list point) :
  (0 < t)%Q -> pairwise_apart t h -> NoDup h.
Proof.
  intros Ht. induction h as [|p rest IH]; cbn [pairwise_apart]; intros Hh.
  - constructor.
  - destruct Hh as [Hp Hrest]. constructor; [|apply IH; exact Hrest].
    intros Hin. apply (Hp p Hin). apply computed_distance_self. exact Ht.
Qed.

(** The separation, entry by entry. *)
Lemma pairwise_apart_split (t : Q) (h : list point) :
  pairwise_apart t h ->
  forall a p b q d,
    h = a ++ p :: b ++ q :: d -> ~ (computed_distance q p < t)%Q.
Proof.
  induction h as [|p0 rest IH]; intros Hh a p b q d Heq.
  - destruct a; discriminate Heq.
  - cbn [pairwise_apart] in Hh. destruct Hh as [Hp Hrest].
    destruct a as [|a0 a].
    + cbn [app] in Heq. injection Heq as -> ->.
      apply (Hp q). apply in_or_app. right. left. reflexivity.
    + cbn [app] in Heq. injection Heq as _ ->.
      apply (IH Hrest a p b q d eq_refl).
Qed.

(** For a whole threshold the separation is one of Euclidean distances. *)
Lemma pairwise_apart_int (T : Z) (t : Q) (h : list point) :
  0 <= T < 2 ^ 26 -> (t == inject_Z T)%Q ->
  pairwise_apart t h ->
  forall a p b q d,
    h = a ++ p :: b ++ q :: d -> (Q2R t <= euclidean_distance q p)%R.
Proof.
  intros HT Ht Hh a p b q d Heq.
  apply Rnot_lt_le. intros Hlt.
  apply (pairwise_apart_split t h Hh a p b q d Heq).
  apply (computed_distance_int q p T t HT Ht). exact Hlt.
Qed.

Section TrackerMore.

Variable cfg : Config.

(** What holds at construction and is kept by every counting decision holds in
    every reachable state. *)
Lemma reachable_consider_ind (P : State -> Prop) :
  P init_state ->
  (forall st c, P st -> P (snd (consider cfg st c))) ->
  forall st, reachable cfg st -> P st.
Proof.
  intros Hinit Hstep st Hst.
  induction Hst as [|st contours st' detected Hst IH Hrun|st Hst IH].
  - exact Hinit.
  - destruct (process_frame_state cfg st contours) as [detected' Hrun'].
    rewrite Hrun' in Hrun. injection Hrun as <- _.
    apply (frame_state_preserves cfg P Hstep). exact IH.
  - exact Hinit.
Qed.

(** X5: in every reachable state [object_count] is not negative and the
    history holds [min(object_count, 100)] entries: one per count since the
    last reset, up to its capacity. *)
Theorem history_length_is_count (st : State) :
  reachable cfg st ->
  0 <= object_count st /\
  Z.of_nat (length (tracked_objects st)) = Z.min (object_count st) 100.
Proof.
  apply (reachable_consider_ind
           (fun s => 0 <= object_count s /\
                     Z.of_nat (length (tracked_objects s)) = Z.min (object_count s) 100)).
  - simpl. lia.
  - intros s c [Hnn Hlen]. unfold consider.
    destruct (has_crossed_line cfg c && negb (is_duplicate_object cfg s c));
      cbn [snd object_count tracked_objects]; [|auto].
    split; [lia|].
    destruct (Nat.lt_ge_cases (length (tracked_objects s)) tracked_maxlen) as [Hlt|Hge].
    + rewrite deque_append_below by exact Hlt.
      rewrite length_app. simpl. unfold tracked_maxlen in Hlt. lia.
    + rewrite deque_append_full by (unfold tracked_maxlen in *; lia).
      rewrite length_app, length_tl. simpl. unfold tracked_maxlen in Hge. lia.
Qed.

(** X6: every centre kept in the history of a reachable state is within 10
    pixels of the counting line. *)
Theorem tracked_objects_at_line (st : State) (p : point) :
  reachable cfg st -> In p (tracked_objects st) ->
  Z.abs (snd p - counting_line_y cfg) <= 10.
Proof.
  intros Hst. revert p.
  apply (reachable_consider_ind
           (fun s => forall p, In p (tracked_objects s) ->
                               Z.abs (snd p - counting_line_y cfg) <= 10));
    [intros p [] | | exact Hst].
  intros s c Hs p. unfold consider.
  destruct (has_crossed_line cfg c) eqn:Hline; cbn [andb];
    [|cbn [snd]; apply Hs].
  destruct (negb (is_duplicate_object cfg s c)); cbn [snd tracked_objects];
    [|apply Hs].
  intros Hin. apply In_deque_append in Hin. destruct Hin as [Hin| ->].
  - apply Hs. exact Hin.
  - apply has_crossed_line_true in Hline. exact Hline.
Qed.

(** X7: in every reachable state no entry of the history is, by the distance
    that the duplicate test computes, strictly within [distance_threshold] of
    an earlier entry; with a positive threshold the history holds no centre
    twice; and with a threshold that is a whole number below 2^26 any two
    entries are at a Euclidean distance of at least the threshold. *)
Theorem tracked_objects_apart (st : State) :
  reachable cfg st ->
  (forall a p b q d,
     tracked_objects st = a ++ p :: b ++ q :: d ->
     ~ (computed_distance q p < distance_threshold cfg)%Q) /\
  ((0 < distance_threshold cfg)%Q -> NoDup (tracked_objects st)) /\
  (forall T, integer_threshold cfg T ->
     forall a p b q d,
       tracked_objects st = a ++ p :: b ++ q :: d ->
       (Q2R (distance_threshold cfg) <= euclidean_distance q p)%R).
Proof.
  intros Hst.
  cut (pairwise_apart (distance_threshold cfg) (tracked_objects st)
       /\ ((0 < distance_threshold cfg)%Q -> NoDup (tracked_objects st))).
  { intros [Hpa Hnd]. split; [|split; [exact Hnd|]].
    - intros a p b q d Heq. apply (pairwise_apart_split _ _ Hpa a p b q d Heq).
    - intros T [HT Ht] a p b q d Heq.
      apply (pairwise_apart_int T _ _ HT Ht Hpa a p b q d Heq). }
  assert (Hpa : pairwise_apart (distance_threshold cfg) (tracked_objects st)).
  { revert st Hst.
    apply (reachable_consider_ind
             (fun s => pairwise_apart (distance_threshold cfg) (tracked_objects s)));
      [exact I|].
    intros s c Hs. unfold consider.
    destruct (has_crossed_line cfg c); cbn [andb]; [|exact Hs].
    destruct (is_duplicate_object cfg s c) eqn:Hdup; cbn [negb snd tracked_objects];
      [exact Hs|].
    apply pairwise_apart_deque_append; [exact Hs|].
    intros p Hin Hnear.
    assert (Htrue : is_duplicate_object cfg s c = true).
    { apply is_duplicate_object_true. exists p. auto. }
    congruence. }
  split; [exact Hpa|].
  intros Ht. apply (pairwise_apart_NoDup _ _ Ht Hpa).
Qed.

(** X8: a [distance_threshold] that is not positive switches the duplicate
    test off: no centre is ever a duplicate, and a candidate is counted exactly
    when it is at the line. *)
Theorem nonpositive_threshold_never_duplicate (st : State) (c : point) :
  (distance_threshold cfg <= 0)%Q ->
  is_duplicate_object cfg st c = false /\
  fst (consider cfg st c) = has_crossed_line cfg c.
Proof.
  intros Ht.
  assert (Hdup : is_duplicate_object cfg st c = false).
  { apply not_true_is_false. intros Hdup.
    apply is_duplicate_object_true in Hdup. destruct Hdup as [p [_ Hnear]].
    pose proof (np_sqrt_nonneg (dist2 c p)) as Hnn.
    apply (Qlt_not_le _ _ Hnear). apply (Qle_trans _ 0); assumption. }
  split; [exact Hdup|].
  unfold consider. rewrite Hdup.
  destruct (has_crossed_line cfg c); reflexivity.
Qed.

End TrackerMore.

(** ** More on frames *)

Section FramesMore.

Variable cfg : Config.

Lemma process_contours_detections (contours : list Contour) :
  forall st detected,
    process_contours cfg st contours detected
    = Ok (frame_state cfg st contours, detected ++ detections cfg contours).
Proof.
  induction contours as [|contour rest IH]; intros st detected; simpl.
  - rewrite app_nil_r. reflexivity.
  - destruct (is_box_like_shape cfg contour) as [[[[] [center|]] bbox]|] eqn:E;
      cbn [bind]; try apply IH.
    + rewrite IH, <- app_assoc. reflexivity.
    + rewrite is_box_like_shape_checks in E. discriminate E.
Qed.

Lemma detections_length (contours : list Contour) :
  (length (detections cfg contours) <= length contours)%nat.
Proof.
  induction contours as [|contour rest IH]; simpl; [lia|].
  classify cfg contour; simpl; lia.
Qed.

Lemma frame_state_count_detections (contours : list Contour) :
  forall st,
    object_count (frame_state cfg st contours)
    <= object_count st + Z.of_nat (length (detections cfg contours)).
Proof.
  induction contours as [|contour rest IH]; intros st; simpl; [lia|].
  classify cfg contour; try apply IH.
  specialize (IH (snd (consider cfg st center))).
  rewrite consider_count in IH.
  destruct (fst (consider cfg st center)); cbn [length]; lia.
Qed.

(** X9: [process_frame] returns, whatever the counting state, the centre and
    the bounding box of every accepted contour, in order and whether counted or
    not; at most one detection per contour, and [object_count] grows by at most
    the number of detections. *)
Theorem process_frame_detections (st : State) (contours : list Contour) :
  process_frame cfg st contours
  = Ok (frame_state cfg st contours, detections cfg contours)
  /\
  (forall c bbox,
     In (c, bbox) (detections cfg contours) <->
     exists contour,
       In contour contours /\ is_box_like_shape cfg contour = Ok (true, Some c, bbox))
  /\
  (length (detections cfg contours) <= length contours)%nat
  /\
  object_count (frame_state cfg st contours)
  <= object_count st + Z.of_nat (length (detections cfg contours)).
Proof.
  split; [|split; [|split]].
  - unfold process_frame. rewrite process_contours_detections. reflexivity.
  - intros c bbox. induction contours as [|contour rest IH]; simpl.
    + split; [intros [] | intros [contour [[] _]]].
    + destruct (is_box_like_shape cfg contour) as [[[[] [center|]] b]|] eqn:E;
        cbn [In]; rewrite ?IH; split;
        try (intros [contour' [Hin Hacc]]; exists contour'; split; [right|]; assumption);
        try (intros [contour' [[<-|Hin] Hacc]];
             [congruence | exists contour'; split; assumption]).
      * intros [Heq|[contour' [Hin Hacc]]].
        -- injection Heq as <- <-. exists contour. auto.
        -- exists contour'. auto.
      * intros [contour' [[<-|Hin] Hacc]].
        -- left. rewrite E in Hacc. injection Hacc as <- <-. reflexivity.
        -- right. exists contour'. auto.
  - apply detections_length.
  - apply frame_state_count_detections.
Qed.

Lemma consider_off_line (st : State) (c : point) :
  has_crossed_line cfg c = false -> consider cfg st c = (false, st).
Proof. intros H. unfold consider. rewrite H. reflexivity. Qed.

(** X10: only the accepted contours whose centre is at the line matter for the
    counting state: the others can be removed from a frame without changing
    the state it leaves, and a frame with none of them leaves the state as it
    was. *)
Theorem frame_state_relevant (st : State) (contours : list Contour) :
  frame_state cfg st contours = frame_state cfg st (filter (relevant cfg) contours)
  /\
  ((forall contour, In contour contours -> relevant cfg contour = false) ->
   frame_state cfg st contours = st).
Proof.
  assert (Hfilter : forall cs s,
            frame_state cfg s cs = frame_state cfg s (filter (relevant cfg) cs)).
  { induction cs as [|contour rest IH]; intros s; simpl; [reflexivity|].
    unfold relevant.
    destruct (is_box_like_shape cfg contour) as [[[[] [center|]] bbox]|] eqn:E;
      try apply IH.
    destruct (has_crossed_line cfg center) eqn:Hline.
    - simpl. rewrite E. apply IH.
    - rewrite (consider_off_line s center Hline). apply IH. }
  split; [apply Hfilter|].
  intros Hnone. rewrite Hfilter.
  replace (filter (relevant cfg) contours) with (@nil Contour); [reflexivity|].
  symmetry. induction contours as [|contour rest IH]; simpl; [reflexivity|].
  rewrite (Hnone contour (or_introl eq_refl)).
  apply IH. intros c Hin. apply Hnone. right. exact Hin.
Qed.

(** X11: the boundaries between frames play no part in the count: a sequence of
    [process_frame] calls leaves the state, and takes the decisions, of one call
    on all the contours in order. *)
Theorem process_frames_concat (st : State) (frames : list (list Contour)) :
  process_frames cfg st frames = Ok (frame_state cfg st (concat frames)) /\
  frames_decisions cfg st frames = frame_decisions cfg st (concat frames).
Proof.
  revert st. induction frames as [|contours rest IH]; intros st; simpl.
  - split; reflexivity.
  - destruct (process_frame_state cfg st contours) as [detected ->]. cbn [bind fst].
    destruct (IH (frame_state cfg st contours)) as [-> ->].
    rewrite frame_state_app, frame_decisions_app. split; reflexivity.
Qed.

(** *** A scene that does not move *)

Lemma is_duplicate_object_incl (st st' : State) (c : point) :
  incl (tracked_objects st) (tracked_objects st') ->
  is_duplicate_object cfg st c = true -> is_duplicate_object cfg st' c = true.
Proof.
  intros Hincl Hdup. apply is_duplicate_object_true in Hdup.
  destruct Hdup as [p [Hin Hnear]].
  apply is_duplicate_object_true. exists p. auto.
Qed.

Lemma consider_room (st : State) (c : point) (n : nat) :
  (length (tracked_objects st) + S n <= tracked_maxlen)%nat ->
  (length (tracked_objects (snd (consider cfg st c))) + n <= tracked_maxlen)%nat.
Proof.
  intros Hroom. unfold consider.
  destruct (has_crossed_line cfg c && negb (is_duplicate_object cfg st c));
    cbn [snd tracked_objects]; [|lia].
  rewrite deque_append_below by lia. rewrite length_app. simpl. lia.
Qed.

(** While the history has room for all the contours of a frame, the frame only
    adds to it. *)
Lemma frame_state_grows (contours : list Contour) :
  forall st,
    (length (tracked_objects st) + length contours <= tracked_maxlen)%nat ->
    exists added,
      tracked_objects (frame_state cfg st contours) = tracked_objects st ++ added.
Proof.
  induction contours as [|contour rest IH]; intros st Hroom; simpl in *.
  - exists []. rewrite app_nil_r. reflexivity.
  - classify cfg contour; try (apply IH; lia).
    unfold consider.
    destruct (has_crossed_line cfg center && negb (is_duplicate_object cfg st center));
      cbn [snd]; [|apply IH; lia].
    destruct (IH {| object_count := object_count st + 1;
                    tracked_objects :=
                      deque_append tracked_maxlen (tracked_objects st) center |})
      as [added Hadded].
    + cbn [tracked_objects]. rewrite deque_append_below by lia.
      rewrite length_app. simpl. lia.
    + rewrite Hadded. cbn [tracked_objects].
      rewrite deque_append_below by lia.
      exists (center :: added). rewrite <- app_assoc. reflexivity.
Qed.

(** A frame whose candidates at the line all match the history changes
    nothing. *)
Lemma covered_frame_fixed (contours : list Contour) (st : State) :
  covered cfg st contours ->
  frame_state cfg st contours = st /\
  count_true (frame_decisions cfg st contours) = 0.
Proof.
  induction contours as [|contour rest IH]; intros Hcov; simpl.
  - split; reflexivity.
  - assert (Hrest : covered cfg st rest).
    { intros c' c b Hin. apply Hcov. right. exact Hin. }
    destruct (is_box_like_shape cfg contour) as [[[[] [center|]] bbox]|] eqn:E;
      try (apply IH; exact Hrest).
    assert (Hcons : consider cfg st center = (false, st)).
    { unfold consider. destruct (has_crossed_line cfg center) eqn:Hline; [|reflexivity].
      rewrite (Hcov contour center bbox (or_introl eq_refl) E Hline). reflexivity. }
    rewrite Hcons. cbn [snd]. rewrite count_true_cons.
    destruct (IH Hrest) as [-> ->]. split; reflexivity.
Qed.

(** After a frame that fitted into the history, each of its candidates at the
    line matches the history. *)
Lemma frame_state_covers (contours : list Contour) :
  (0 < distance_threshold cfg)%Q ->
  forall st,
    (length (tracked_objects st) + length contours <= tracked_maxlen)%nat ->
    covered cfg (frame_state cfg st contours) contours.
Proof.
  intros Ht. induction contours as [|contour rest IH]; intros st Hroom.
  - intros c' c b [].
  - simpl in Hroom. intros c' c b Hin Hacc Hline.
    cbn [frame_state].
    destruct Hin as [<-|Hin].
    + rewrite Hacc.
      pose proof (consider_room st c (length rest) Hroom) as Hroom'.
      destruct (frame_state_grows rest _ Hroom') as [added Hadded].
      apply (is_duplicate_object_incl (snd (consider cfg st c))).
      * rewrite Hadded. apply incl_appl, incl_refl.
      * unfold consider. rewrite Hline. cbn [andb].
        destruct (is_duplicate_object cfg st c) eqn:Hdup; cbn [negb snd]; [exact Hdup|].
        apply is_duplicate_object_true. exists c. split.
        -- cbn [tracked_objects]. rewrite deque_append_below by lia.
           apply in_or_app. right. left. reflexivity.
        -- apply computed_distance_self. exact Ht.
    + destruct (is_box_like_shape cfg contour) as [[[[] [center|]] bbox]|] eqn:E;
        try (apply (IH st ltac:(lia) c' c b Hin Hacc Hline)).
      apply (IH _ (consider_room st center (length rest) Hroom) c' c b Hin Hacc Hline).
Qed.

(** X12: with a positive [distance_threshold], a frame that fits into the free
    room of the history is counted once: processing the same contours again
    right after takes no true decision and leaves the state as it is. *)
Theorem same_frame_not_recounted (st : State) (contours : list Contour) :
  (0 < distance_threshold cfg)%Q ->
  (length (tracked_objects st) + length contours <= 100)%nat ->
  frame_state cfg (frame_state cfg st contours) contours
  = frame_state cfg st contours
  /\
  count_true (frame_decisions cfg (frame_state cfg st contours) contours) = 0.
Proof.
  intros Ht Hroom.
  apply covered_frame_fixed, frame_state_covers; assumption.
Qed.

End FramesMore.

(** ** More on the loop of [run] *)

Lemma truediv_nonzero (a b : Q) :
  ~ (b == 0)%Q -> truediv a b = Ok (a / b)%Q.
Proof.
  intros Hb. unfold truediv. destruct (Qeq_bool b 0) eqn:E; [|reflexivity].
  apply Qeq_bool_eq in E. contradiction.
Qed.

Lemma truediv_zero (a b : Q) :
  (b == 0)%Q -> truediv a b = ZeroDivisionError.
Proof.
  intros Hb. unfold truediv. apply Qeq_bool_iff in Hb. rewrite Hb. reflexivity.
Qed.

Lemma Qminus_eq_zero (a b : Q) : (a - b == 0)%Q <-> (a == b)%Q.
Proof.
  split; intros H.
  - apply Qplus_inj_r with (z := (- b)%Q). rewrite Qplus_opp_r. exact H.
  - rewrite H. unfold Qminus. apply Qplus_opp_r.
Qed.

Section RunMore.

Variable cfg : Config.

Lemma run_app (pre post : list (list Contour * Key)) :
  no_quit pre ->
  forall st, run cfg st (pre ++ post) = (st' <- run cfg st pre ;; run cfg st' post).
Proof.
  induction pre as [|[contours key] rest IH]; intros Hnq st; simpl.
  - reflexivity.
  - rewrite run_iteration_state. cbn [bind fst snd].
    assert (Hrest : no_quit rest).
    { intros f Hin. apply Hnq. right. exact Hin. }
    destruct key.
    + exfalso. apply (Hnq (contours, KeyQ)); [left|]; reflexivity.
    + apply IH. exact Hrest.
    + apply IH. exact Hrest.
Qed.

Lemma run_returns (frames : list (list Contour * Key)) :
  forall st, exists st', run cfg st frames = Ok st'.
Proof.
  induction frames as [|[contours key] rest IH]; intros st; simpl.
  - exists st. reflexivity.
  - rewrite run_iteration_state. cbn [bind fst snd].
    destruct key; [eexists; reflexivity | apply IH | apply IH].
Qed.

(** X13: the key 'q' ends the loop: whatever frames and keys follow the
    iteration in which it is read have no effect on the result. *)
Theorem run_ignores_frames_after_quit (st : State)
  (pre post : list (list Contour * Key)) (contours : list Contour) :
  run cfg st (pre ++ (contours, KeyQ) :: post)
  = run cfg st (pre ++ [(contours, KeyQ)]).
Proof.
  revert st. induction pre as [|[cs key] rest IH]; intros st; simpl.
  - rewrite run_iteration_state. reflexivity.
  - rewrite run_iteration_state. cbn [bind fst snd].
    destruct key; [reflexivity | apply IH | apply IH].
Qed.

(** X14: the key 'r' makes the loop forget its past: if 'q' was not read
    before, the result of the loop is the one of a newly constructed counter
    run on the iterations after the reset. *)
Theorem run_reset_forgets (st : State)
  (pre post : list (list Contour * Key)) (contours : list Contour) :
  no_quit pre ->
  run cfg st (pre ++ (contours, KeyR) :: post) = run cfg init_state post.
Proof.
  intros Hnq. rewrite (run_app pre _ Hnq).
  destruct (run_returns pre st) as [st' ->]. cbn [bind].
  cbn [run]. rewrite run_iteration_state. reflexivity.
Qed.

(** X15: while no key is read, the loop of [run] is a sequence of
    [process_frame] calls, and leaves the state of one call on all the
    contours in order. *)
Theorem run_without_keys (st : State) (frames : list (list Contour)) :
  run cfg st (map (fun contours => (contours, KeyOther)) frames)
  = Ok (frame_state cfg st (concat frames))
  /\
  run cfg st (map (fun contours => (contours, KeyOther)) frames)
  = process_frames cfg st frames.
Proof.
  revert st. induction frames as [|contours rest IH]; intros st; simpl.
  - split; reflexivity.
  - rewrite run_iteration_state. cbn [bind fst snd].
    destruct (process_frame_state cfg st contours) as [detected ->]. cbn [bind fst].
    destruct (IH (frame_state cfg st contours)) as [H1 H2].
    rewrite frame_state_app. split; [exact H1 | exact H2].
Qed.

End RunMore.

(** ** FPS bookkeeping *)

Section Fps.

Variable cfg : Config.

(** X16: [calculate_fps] raises [ZeroDivisionError] exactly on a call whose
    number is a multiple of 30 while the clock still shows the stored start
    time, and the loop of [run] ends with that exception; every other call
    adds 1 to [fps_counter], and changes [current_fps] (to 30 over the elapsed
    time) and [fps_start_time] only when the call number is a multiple of 30. *)
Theorem calculate_fps_spec (fs : FpsState) (now1 now2 : Q) :
  (calculate_fps fs now1 now2 = ZeroDivisionError <->
   (fps_counter fs + 1) mod 30 = 0 /\ (now1 == fps_start_time fs)%Q)
  /\
  (forall st t rest,
     (fps_counter fs + 1) mod 30 = 0 ->
     (now_elapsed t == fps_start_time fs)%Q ->
     run_loop cfg fs st (t :: rest) = ZeroDivisionError)
  /\
  (forall fs',
     calculate_fps fs now1 now2 = Ok fs' ->
     fps_counter fs' = fps_counter fs + 1 /\
     ((fps_counter fs + 1) mod 30 <> 0 ->
      fps_start_time fs' = fps_start_time fs /\ current_fps fs' = current_fps fs) /\
     ((fps_counter fs + 1) mod 30 = 0 ->
      fps_start_time fs' = now2 /\
      current_fps fs' = (30 / (now1 - fps_start_time fs))%Q)).
Proof.
  assert (Hraise : forall n1 n2,
            calculate_fps fs n1 n2 = ZeroDivisionError <->
            (fps_counter fs + 1) mod 30 = 0 /\ (n1 == fps_start_time fs)%Q).
  { intros n1 n2. unfold calculate_fps.
    destruct ((fps_counter fs + 1) mod 30 =? 0) eqn:E.
    - apply Z.eqb_eq in E. unfold truediv.
      destruct (Qeq_bool (n1 - fps_start_time fs) 0) eqn:Ez; cbn [bind].
      + apply Qeq_bool_eq in Ez. apply (proj1 (Qminus_eq_zero _ _)) in Ez.
        split; [intros _; split; [exact E | exact Ez] | reflexivity].
      + split; [discriminate|]. intros [_ Heq].
        apply (proj2 (Qminus_eq_zero _ _)), Qeq_bool_iff in Heq. congruence.
    - apply Z.eqb_neq in E. split; [discriminate | tauto]. }
  split; [apply Hraise|]. split.
  - intros st t rest Hmod Heq. cbn [run_loop].
    rewrite (proj2 (Hraise (now_elapsed t) (now_restart t)) (conj Hmod Heq)).
    reflexivity.
  - intros fs' Hok. unfold calculate_fps in Hok.
    destruct ((fps_counter fs + 1) mod 30 =? 0) eqn:E.
    + apply Z.eqb_eq in E. unfold truediv in Hok.
      destruct (Qeq_bool (now1 - fps_start_time fs) 0); cbn [bind] in Hok;
        [discriminate Hok|].
      injection Hok as <-. cbn. repeat split; intros; try reflexivity; congruence.
    + apply Z.eqb_neq in E. injection Hok as <-. cbn.
      repeat split; intros; try reflexivity; congruence.
Qed.

Lemma calculate_fps_advancing (fs : FpsState) (last now1 now2 : Q) :
  (fps_start_time fs <= last)%Q -> (last < now1)%Q -> (now1 <= now2)%Q ->
  exists fs',
    calculate_fps fs now1 now2 = Ok fs' /\
    fps_counter fs' = fps_counter fs + 1 /\
    (fps_start_time fs' <= now2)%Q.
Proof.
  intros Hstart Hlast Hnow. unfold calculate_fps.
  assert (Hlt : (fps_start_time fs < now1)%Q) by (apply (Qle_lt_trans _ last); assumption).
  destruct ((fps_counter fs + 1) mod 30 =? 0).
  - rewrite truediv_nonzero.
    + cbn [bind]. eexists. split; [reflexivity|]. cbn.
      split; [reflexivity | apply Qle_refl].
    + intros Heq. apply (proj1 (Qminus_eq_zero _ _)) in Heq. rewrite Heq in Hlt.
      exact (Qlt_irrefl _ Hlt).
  - eexists. split; [reflexivity|]. cbn. split; [reflexivity|].
    apply Qlt_le_weak. apply (Qlt_le_trans _ now1); assumption.
Qed.

(** X17: the FPS bookkeeping does not touch the count: whenever the loop with
    [calculate_fps] returns, its counting state is the one of the loop without
    it. *)
Theorem run_loop_counts_as_run (ticks : list Tick) :
  forall fs st fs' st',
    run_loop cfg fs st ticks = Ok (fs', st') ->
    run cfg st (map tick_frame ticks) = Ok st'.
Proof.
  induction ticks as [|t rest IH]; intros fs st fs' st' Hrun; simpl in *.
  - injection Hrun as _ <-. reflexivity.
  - destruct (calculate_fps fs (now_elapsed t) (now_restart t)) as [fs1|];
      cbn [bind] in Hrun; [|discriminate Hrun].
    rewrite run_iteration_state in *. cbn [bind fst snd] in *.
    destruct (tick_key t).
    + injection Hrun as _ <-. reflexivity.
    + apply (IH fs1 _ fs' st' Hrun).
    + apply (IH fs1 _ fs' st' Hrun).
Qed.

(** X18: when every reading of the clock is later than the one before,
    starting after the stored start time, the loop of [run] returns, without
    [ZeroDivisionError]; if 'q' is not read, [fps_counter] has then grown by the
    number of iterations. *)
Theorem run_loop_with_advancing_clock (ticks : list Tick) :
  forall fs st last,
    (fps_start_time fs <= last)%Q ->
    clock_advances last ticks ->
    exists fs' st',
      run_loop cfg fs st ticks = Ok (fs', st') /\
      (no_quit (map tick_frame ticks) ->
       fps_counter fs' = fps_counter fs + Z.of_nat (length ticks)).
Proof.
  induction ticks as [|t rest IH]; intros fs st last Hstart Hclock.
  - exists fs, st. split; [reflexivity|]. intros _. simpl. lia.
  - destruct Hclock as [Hlast [Hnow Hrest]].
    destruct (calculate_fps_advancing fs last _ _ Hstart Hlast Hnow)
      as [fs1 [Hfps [Hcount Hstart1]]].
    cbn [run_loop]. rewrite Hfps. cbn [bind].
    rewrite run_iteration_state. cbn [bind fst snd].
    destruct (tick_key t) eqn:Hkey.
    + do 2 eexists. split; [reflexivity|]. intros Hnq. exfalso.
      apply (Hnq (tick_frame t)); [left; reflexivity|].
      unfold tick_frame. simpl. exact Hkey.
    + destruct (IH fs1 (reset (frame_state cfg st (tick_contours t)))
                  (now_restart t) Hstart1 Hrest) as [fs' [st' [Hrun Hcnt]]].
      exists fs', st'. split; [exact Hrun|]. intros Hnq.
      rewrite Hcnt; [rewrite Hcount; cbn [length]; lia|].
      intros f Hin. apply Hnq. right. exact Hin.
    + destruct (IH fs1 (frame_state cfg st (tick_contours t))
                  (now_restart t) Hstart1 Hrest) as [fs' [st' [Hrun Hcnt]]].
      exists fs', st'. split; [exact Hrun|]. intros Hnq.
      rewrite Hcnt; [rewrite Hcount; cbn [length]; lia|].
      intros f Hin. apply Hnq. right. exact Hin.
Qed.

End Fps.

(** ** The further theorems at concrete inputs *)

Lemma state_A_reachable : reachable default_config state_A.
Proof.
  apply (reach_frame default_config init_state [scenario_A_blob] _
           [((100, 250), Some (75, 225, 50, 50))]).
  - apply reach_init.
  - reflexivity.
Qed.

Lemma is_box_like_shape_accepts_iff_witness :
  is_box_like_shape default_config scenario_A_blob
  = Ok (true, Some (75 + 50 / 2, 225 + 50 / 2), Some (75, 225, 50, 50))
  <->
  ((1000 <= contourArea scenario_A_blob)%Q /\
   (contourArea scenario_A_blob <= 50000)%Q) /\
  (0 < 50 /\ (3 # 10 <= inject_Z 50 / inject_Z 50)%Q /\
             (inject_Z 50 / inject_Z 50 <= 3)%Q) /\
  (3 # 10 <= contourArea scenario_A_blob / inject_Z (50 * 50))%Q.
Proof.
  apply (proj2 (is_box_like_shape_accepts_iff default_config scenario_A_blob
                  75 225 50 50 4000 eq_refl)).
  - split; [lia | reflexivity].
  - split; [lia | reflexivity].
  - reflexivity.
Defined.

Lemma center_in_bounding_box_witness :
  (75 <= 100 <= 75 + 50 /\ 225 <= 250 <= 225 + 50) /\
  (0 < 50 -> 100 < 75 + 50) /\ (0 < 50 -> 250 < 225 + 50) /\
  Some (75, 225, 50, 50) = Some (75, 225, 50, 50).
Proof.
  apply (center_in_bounding_box default_config scenario_A_blob 75 225 50 50 100 250
           (Some (75, 225, 50, 50))).
  - reflexivity.
  - lia.
  - lia.
  - reflexivity.
Defined.

Lemma empty_range_rejects_all_witness :
  is_box_like_shape inverted_area_config scenario_A_blob = Ok rejected.
Proof.
  apply (empty_range_rejects_all inverted_area_config scenario_A_blob).
  left. reflexivity.
Defined.

Lemma default_accepted_box_size_witness :
  0 < 50 <= 707 /\ 0 < 50 <= 745 /\ 50 * 50 <= 166666.
Proof.
  apply (default_accepted_box_size scenario_A_blob 75 225 50 50
           (Some (100, 250)) (Some (75, 225, 50, 50))); reflexivity.
Defined.

Lemma history_length_is_count_witness :
  0 <= object_count state_A /\
  Z.of_nat (length (tracked_objects state_A)) = Z.min (object_count state_A) 100.
Proof.
  apply (history_length_is_count default_config state_A).
  apply state_A_reachable.
Defined.

Lemma tracked_objects_at_line_witness :
  Z.abs (snd (100, 250) - counting_line_y default_config) <= 10.
Proof.
  apply (tracked_objects_at_line default_config state_A (100, 250)).
  - apply state_A_reachable.
  - left. reflexivity.
Defined.

Lemma tracked_objects_apart_witness :
  (forall a p b q d,
     tracked_objects state_two = a ++ p :: b ++ q :: d ->
     ~ (computed_distance q p < distance_threshold default_config)%Q) /\
  ((0 < distance_threshold default_config)%Q -> NoDup (tracked_objects state_two)) /\
  (forall T, integer_threshold default_config T ->
     forall a p b q d,
       tracked_objects state_two = a ++ p :: b ++ q :: d ->
       (Q2R (distance_threshold default_config) <= euclidean_distance q p)%R).
Proof.
  apply (tracked_objects_apart default_config state_two).
  apply (reach_frame default_config init_state [blob_at 100 250; blob_at 200 250] _
           [((100, 250), Some (75, 225, 50, 50));
            ((200, 250), Some (175, 225, 50, 50))]).
  - apply reach_init.
  - vm_compute. reflexivity.
Defined.

(** Without the duplicate test the blob of scenario A is counted again, and the
    history holds its centre twice. *)
Lemma nonpositive_threshold_never_duplicate_witness :
  is_duplicate_object no_dedup_config state_A (100, 250) = false /\
  fst (consider no_dedup_config state_A (100, 250))
  = has_crossed_line no_dedup_config (100, 250).
Proof.
  apply (nonpositive_threshold_never_duplicate no_dedup_config state_A (100, 250)).
  intros H. discriminate H.
Defined.

Example no_dedup_counts_twice :
  process_frames no_dedup_config init_state [[scenario_A_blob]; [scenario_A_blob]]
  = Ok {| object_count := 2; tracked_objects := [(100, 250); (100, 250)] |}.
Proof. reflexivity. Qed.

Lemma same_frame_not_recounted_witness :
  frame_state default_config
    (frame_state default_config init_state [scenario_A_blob; blob_at 300 250])
    [scenario_A_blob; blob_at 300 250]
  = frame_state default_config init_state [scenario_A_blob; blob_at 300 250]
  /\
  count_true
    (frame_decisions default_config
       (frame_state default_config init_state [scenario_A_blob; blob_at 300 250])
       [scenario_A_blob; blob_at 300 250]) = 0.
Proof.
  apply (same_frame_not_recounted default_config init_state
           [scenario_A_blob; blob_at 300 250]).
  - reflexivity.
  - simpl. lia.
Defined.

Lemma run_reset_forgets_witness :
  run default_config state_A
    ([([blob_at 300 250], KeyOther)] ++ ([blob_at 500 250], KeyR)
       :: [([scenario_A_blob], KeyOther)])
  = run default_config init_state [([scenario_A_blob], KeyOther)].
Proof.
  apply (run_reset_forgets default_config state_A
           [([blob_at 300 250], KeyOther)] [([scenario_A_blob], KeyOther)]
           [blob_at 500 250]).
  intros f [<-|[]]. discriminate.
Defined.

Lemma run_loop_counts_as_run_witness :
  run default_config init_state (map tick_frame thirty_ticks) = Ok init_state.
Proof.
  eapply (run_loop_counts_as_run default_config thirty_ticks (init_fps 0) init_state
            _ init_state).
  vm_compute. reflexivity.
Defined.

Lemma run_loop_with_advancing_clock_witness :
  exists fs' st',
    run_loop default_config (init_fps 0) init_state thirty_ticks = Ok (fs', st') /\
    (no_quit (map tick_frame thirty_ticks) ->
     fps_counter fs' = fps_counter (init_fps 0) + Z.of_nat (length thirty_ticks)).
Proof.
  apply (run_loop_with_advancing_clock default_config thirty_ticks (init_fps 0)
           init_state 0%Q).
  - apply Qle_refl.
  - cbv. repeat split; try reflexivity; intros H; discriminate H.
Defined.

(** The thirtieth call of [calculate_fps] divides by the elapsed time: it shows
    1 frame per second after thirty ticks one second apart, and raises when the
    clock has not moved. *)
Example calculate_fps_thirtieth :
  calculate_fps {| fps_counter := 29; fps_start_time := 0; current_fps := 0 |} 30 30
  = Ok {| fps_counter := 30; fps_start_time := 30; current_fps := (30 / (30 - 0))%Q |}
  /\
  calculate_fps {| fps_counter := 29; fps_start_time := 7; current_fps := 0 |} 7 8
  = ZeroDivisionError
  /\
  calculate_fps {| fps_counter := 28; fps_start_time := 7; current_fps := 0 |} 7 8
  = Ok {| fps_counter := 29; fps_start_time := 7; current_fps := 0 |}.
Proof. repeat split. Qed.
